(** * Conversation manager: history, favorability and the turn state machine

    A shallow embedding of [backend/conversation_manager.py] over the
    tables declared in [backend/database.py].

    - The record store is a record of tables, each a list of rows in
      insertion (rowid) order.  Every [db.add; db.commit] of the source is
      an append to a table; the ORM's in-place attribute update followed by
      [commit] is an in-place row update.
    - Python [int] and SQL [Integer] are modelled by [Z]; a timestamp
      ([DateTime]) is a [Z] counting microseconds, the resolution of
      [datetime], on the UTC timeline.
    - Code that touches the database runs in a state-and-exception monad
      [M]: an exception leaves the writes committed before it in place.
    - The wall clock, the remote gateway and [traceback.format_exc] are the
      environment of a turn ([TurnEnv]).
    - Columns no modelled function reads ([created_at], [last_active],
      [last_updated]) and the [user_preferences] table are left out.
      Foreign keys are not enforced (the SQLite default); the [unique]
      constraint of [favorability_tracking.character_id] is. *)

From Stdlib Require Import ZArith List String Bool Lia.
From Stdlib Require Import Sorting.Sorted Sorting.Permutation.
From Stdlib Require Import Numbers.DecimalString.
Import ListNotations.

Local Open Scope string_scope.
Local Open Scope list_scope.
Local Open Scope Z_scope.

(** ** Data model (database.py) *)

(** A decoded JSON value, as held by a [JSON] column; [JNull] is Python's
    [None]. *)
#[local] Unset Elimination Schemes.
Inductive json : Type :=
| JNull
| JBool (b : bool)
| JNum (literal : string)
| JStr (s : string)
| JList (items : list json)
| JDict (fields : list (string * json)).
#[local] Set Elimination Schemes.

(** [isinstance(v, dict)] *)
Definition is_dict (v : json) : bool :=
  match v with JDict _ => true | _ => false end.

Record User : Type := {
  user_id : Z;
  username : string
}.

Record Character : Type := {
  character_id : Z;
  c_user_id : Z;
  name : string;
  gender : string;
  identity : option string;
  nickname : option string;
  detail_setting : option string;
  other_setting : json
}.

Record Message : Type := {
  message_id : Z;
  m_user_id : Z;
  m_character_id : Z;
  speaker_name : string;
  message_content : string;
  timestamp : Z;
  favorability_level : Z
}.

Record FavorabilityTracking : Type := {
  tracking_id : Z;
  f_user_id : Z;
  f_character_id : Z;
  current_level : Z;
  message_count : Z
}.

Record DB : Type := {
  users : list User;
  characters : list Character;
  messages : list Message;
  favorability_tracking : list FavorabilityTracking
}.

Definition empty_db : DB :=
  {| users := []; characters := []; messages := [];
     favorability_tracking := [] |}.

(** The next integer primary key of a table: one more than the largest
    key in use, 1 for an empty table. *)
Definition next_id (ids : list Z) : Z :=
  1 + fold_right Z.max 0 ids.

(** ** Exceptions and the database monad *)

Inductive exn : Type :=
| ValueError (msg : string)
| KeyError (key : string)
| IntegrityError (msg : string)
| JSONDecodeError (msg : string)
| RequestException (msg : string).

(** [repr] of a key, as [str(KeyError(key))] prints it. *)
Definition repr_str (s : string) : string := ("'" ++ s ++ "'")%string.

(** [str(e)] *)
Definition exn_str (e : exn) : string :=
  match e with
  | ValueError msg => msg
  | KeyError key => repr_str key
  | IntegrityError msg => msg
  | JSONDecodeError msg => msg
  | RequestException msg => msg
  end.

Inductive outcome (A : Type) : Type :=
| Return (a : A)
| Raise (e : exn).
Arguments Return {A} a.
Arguments Raise {A} e.

Definition M (A : Type) : Type := DB -> outcome A * DB.

Definition ret {A} (a : A) : M A := fun db => (Return a, db).

Definition bind {A B} (m : M A) (k : A -> M B) : M B :=
  fun db =>
    match m db with
    | (Return a, db') => k a db'
    | (Raise e, db') => (Raise e, db')
    end.

Definition raise {A} (e : exn) : M A := fun db => (Raise e, db).

(** A read-only query. *)
Definition query {A} (q : DB -> A) : M A := fun db => (Return (q db), db).

(** A committed write. *)
Definition commit (w : DB -> DB) : M unit := fun db => (Return tt, w db).

(** [try: body except Exception as e: handler(e)] *)
Definition try_except {A} (body : M A) (handler : exn -> M A) : M A :=
  fun db =>
    match body db with
    | (Return a, db') => (Return a, db')
    | (Raise e, db') => handler e db'
    end.

Declare Scope db_scope.
Delimit Scope db_scope with db.
Notation "x <- c1 ;; c2" := (bind c1 (fun x => c2))
  (at level 100, c1 at next level, right associativity) : db_scope.
Notation "c1 ;;; c2" := (bind c1 (fun _ => c2))
  (at level 100, right associativity) : db_scope.
Local Open Scope db_scope.

(** [str(n)] for a Python int. *)
Definition str_of_int (n : Z) : string :=
  NilZero.string_of_int (Z.to_int n).

(** ** Favorability thresholds and history bound (class constants) *)

Definition LEVEL_1_THRESHOLD : Z := 0.
Definition LEVEL_2_THRESHOLD : Z := 20.
Definition LEVEL_3_THRESHOLD : Z := 50.
Definition MAX_HISTORY_MESSAGES : Z := 100.

(** The level chosen by the [if/elif/else] chain of
    [update_favorability] for an (already incremented) message count. *)
Definition level_for (count : Z) : Z :=
  if count >=? LEVEL_3_THRESHOLD then 3
  else if count >=? LEVEL_2_THRESHOLD then 2
  else 1.

(** ** Table queries *)

Definition by_character (cid : Z) (m : Message) : bool :=
  m_character_id m =? cid.

(** [ORDER BY timestamp ASC]: a stable insertion sort, so rows with equal
    timestamps keep their rowid order. *)
Fixpoint insert_by_timestamp (m : Message) (l : list Message) : list Message :=
  match l with
  | [] => [m]
  | x :: r =>
      if timestamp m <=? timestamp x then m :: l
      else x :: insert_by_timestamp m r
  end.

Definition order_by_timestamp (l : list Message) : list Message :=
  fold_right insert_by_timestamp [] l.

(** [db.query(Message).filter(Message.character_id == cid)
       .order_by(Message.timestamp.asc())] *)
Definition character_timeline (cid : Z) (db : DB) : list Message :=
  order_by_timestamp (filter (by_character cid) (messages db)).

(** ** ConversationManager *)

Definition get_or_create_user (uname : string) : M User :=
  user <- query (fun db =>
            find (fun u => String.eqb (username u) uname) (users db)) ;;
  match user with
  | Some u => ret u
  | None =>
      uid <- query (fun db => next_id (map user_id (users db))) ;;
      let u := {| user_id := uid; username := uname |} in
      commit (fun db =>
        {| users := users db ++ [u]; characters := characters db;
           messages := messages db;
           favorability_tracking := favorability_tracking db |}) ;;;
      ret u
  end.

(** The [character_data] dictionary: [None] is a missing key. *)
Record CharacterData : Type := {
  cd_name : option string;
  cd_gender : option string;
  cd_identity : option string;
  cd_nickname : option string;
  cd_detail_setting : option string;
  cd_other_setting : json
}.

(** [d[key]] *)
Definition subscript {A} (key : string) (v : option A) : M A :=
  match v with
  | Some a => ret a
  | None => raise (KeyError key)
  end.

Definition get_character (cid : Z) : M (option Character) :=
  query (fun db => find (fun c => character_id c =? cid) (characters db)).

Definition get_favorability (cid : Z) : M (option FavorabilityTracking) :=
  query (fun db =>
    find (fun f => f_character_id f =? cid) (favorability_tracking db)).

Section SaveCharacter.

(** [json.loads]: the decoded value, or the exception it raises. *)
Variable json_loads : string -> outcome json.

Definition save_character (uid : Z) (character_data : CharacterData)
  : M Character :=
  nm <- subscript "name" (cd_name character_data) ;;
  gd <- subscript "gender" (cd_gender character_data) ;;
  os <- match cd_other_setting character_data with
        | JStr s =>
            match json_loads s with
            | Return v => ret v
            | Raise e => raise e
            end
        | v => ret v
        end ;;
  cid <- query (fun db => next_id (map character_id (characters db))) ;;
  let character :=
    {| character_id := cid; c_user_id := uid; name := nm; gender := gd;
       identity := cd_identity character_data;
       nickname := cd_nickname character_data;
       detail_setting := cd_detail_setting character_data;
       other_setting := os |} in
  commit (fun db =>
    {| users := users db; characters := characters db ++ [character];
       messages := messages db;
       favorability_tracking := favorability_tracking db |}) ;;;
  (* Initialize favorability tracking *)
  taken <- get_favorability cid ;;
  match taken with
  | Some _ =>
      raise (IntegrityError
               "UNIQUE constraint failed: favorability_tracking.character_id")
  | None =>
      tid <- query (fun db =>
               next_id (map tracking_id (favorability_tracking db))) ;;
      let favorability :=
        {| tracking_id := tid; f_user_id := uid; f_character_id := cid;
           current_level := 1; message_count := 0 |} in
      commit (fun db =>
        {| users := users db; characters := characters db;
           messages := messages db;
           favorability_tracking :=
             favorability_tracking db ++ [favorability] |}) ;;;
      ret character
  end.

End SaveCharacter.

(** [now] is the value of [datetime.utcnow] that the [timestamp] column
    default takes at the insert. *)
Definition save_message (now uid cid : Z) (speaker content : string)
    (level : Z) : M Message :=
  mid <- query (fun db => next_id (map message_id (messages db))) ;;
  let message :=
    {| message_id := mid; m_user_id := uid; m_character_id := cid;
       speaker_name := speaker; message_content := content;
       timestamp := now; favorability_level := level |} in
  commit (fun db =>
    {| users := users db; characters := characters db;
       messages := messages db ++ [message];
       favorability_tracking := favorability_tracking db |}) ;;;
  ret message.

(** Truth value of an [Optional[int]]: [None] and [0] are false. *)
Definition truthy (limit : option Z) : bool :=
  match limit with
  | None => false
  | Some n => negb (n =? 0)
  end.

Definition get_conversation_history (cid : Z) (limit : option Z)
    : M (list Message) :=
  all <- query (character_timeline cid) ;;
  match limit with
  | Some n =>
      if truthy limit then
        (* Get the most recent N messages *)
        total <- query (fun db => Z.of_nat (List.length (character_timeline cid db))) ;;
        if total >? n then ret (skipn (Z.to_nat (total - n)) all)
        else ret all
      else ret all
  | None => ret all
  end.

(** The ORM's [UPDATE favorability_tracking SET ... WHERE tracking_id = ?]. *)
Definition update_tracker (f' : FavorabilityTracking)
    (l : list FavorabilityTracking) : list FavorabilityTracking :=
  map (fun g => if tracking_id g =? tracking_id f' then f' else g) l.

Definition update_favorability (cid : Z) : M (Z * bool) :=
  favorability <- get_favorability cid ;;
  match favorability with
  | None => ret (1, false)
  | Some f =>
      (* Increment message count *)
      let count := message_count f + 1 in
      let old_level := current_level f in
      (* Determine new level based on message count *)
      let new_level := level_for count in
      let level_increased := new_level >? old_level in
      commit (fun db =>
        {| users := users db; characters := characters db;
           messages := messages db;
           favorability_tracking :=
             update_tracker
               {| tracking_id := tracking_id f; f_user_id := f_user_id f;
                  f_character_id := f_character_id f;
                  current_level := new_level; message_count := count |}
               (favorability_tracking db) |}) ;;;
      ret (new_level, level_increased)
  end.

Record ApiMessage : Type := {
  am_name : string;
  am_content : string
}.

Definition format_messages_for_api (msgs : list Message) : list ApiMessage :=
  map (fun msg =>
         {| am_name := speaker_name msg;
            am_content := message_content msg |}) msgs.

(** ** The remote gateway (api_client.py), at its interface *)

(** The ["other_setting"] entry of the character descriptor:
    [Dumped v] stands for the text [json.dumps(v, ensure_ascii=False)],
    [Plain v] for the value passed as it is. *)
Inductive SettingField : Type :=
| Dumped (v : json)
| Plain (v : json).

Record UserSetting : Type := {
  us_name : string;
  us_gender : string;
  us_detail_setting : string
}.

Record CharacterSetting : Type := {
  cs_name : string;
  cs_gender : string;
  cs_identity : option string;
  cs_nickname : option string;
  cs_detail_setting : option string;
  cs_other_setting : SettingField;
  cs_feeling_toward : list (string * Z)
}.

Record RoleSetting : Type := {
  user_name : string;
  primary_bot_name : string
}.

Record ChatRequest : Type := {
  character_settings : UserSetting * CharacterSetting;
  role_setting : RoleSetting;
  req_messages : list ApiMessage;
  max_new_tokens : Z
}.

(** The response dictionary: [None] is a missing key. *)
Record ChatData : Type := {
  reply : option string;
  usage : option json
}.

Record ChatResponse : Type := {
  data : option ChatData
}.

(** What one turn reads from outside the database: the gateway, the clock
    at the two inserts and at the anniversary check, and the traceback
    text of a caught exception. *)
Record TurnEnv : Type := {
  create_character_chat : ChatRequest -> outcome ChatResponse;
  utcnow_inbound : Z;
  utcnow_outbound : Z;
  now_utc : Z;
  format_exc : exn -> string
}.

Definition call_gateway (env : TurnEnv) (req : ChatRequest) : M ChatResponse :=
  fun db => (create_character_chat env req, db).

(** ** One turn *)

Record TurnSuccess : Type := {
  r_reply : string;
  r_favorability_level : Z;
  r_level_increased : bool;
  r_message_count : Z;
  r_milestone_reached : bool;
  r_milestone_number : Z;
  r_anniversary_reached : bool;
  r_anniversary_days : Z;
  r_usage : json
}.

(** The returned dictionary: ["success": True] with the turn's data, or
    ["success": False] with [error] and [error_details]. *)
Inductive TurnResult : Type :=
| Success (r : TurnSuccess)
| Failure (error : string) (error_details : string).

(** [for v in values: if x == v: reached = True; number = v; break],
    started from [reached = False; number = 0]. *)
Fixpoint first_equal (x : Z) (values : list Z) : bool * Z :=
  match values with
  | [] => (false, 0)
  | v :: rest => if x =? v then (true, v) else first_equal x rest
  end.

Definition milestones : list Z := [50; 100; 200; 500; 1000].
Definition anniversary_milestones : list Z := [7; 30; 100; 365].

Definition MICROSECONDS_PER_DAY : Z := 86400 * 1000000.

(** [(a - b).days]: a [timedelta] is normalised with
    [0 <= seconds < 86400], so [days] is the floor. *)
Definition timedelta_days (a b : Z) : Z := (a - b) / MICROSECONDS_PER_DAY.

Definition build_request (user : User) (character : Character)
    (level : Z) (api_messages : list ApiMessage) : ChatRequest :=
  {| character_settings :=
       ({| us_name := username user;
           us_gender := "男";
           us_detail_setting := "用戶" |},
        {| cs_name := name character;
           cs_gender := gender character;
           cs_identity := identity character;
           cs_nickname := nickname character;
           cs_detail_setting := detail_setting character;
           cs_other_setting :=
             if is_dict (other_setting character)
             then Dumped (other_setting character)
             else Plain (other_setting character);
           cs_feeling_toward := [(username user, level)] |});
     role_setting :=
       {| user_name := username user;
          primary_bot_name := name character |};
     req_messages := api_messages;
     max_new_tokens := 1024 |}.

(** The body of the [try] block of [send_message]. *)
Definition complete_turn (env : TurnEnv) (uid cid : Z) (character : Character)
    (level : Z) (req : ChatRequest) : M TurnResult :=
  response <- call_gateway env req ;;
  d <- subscript "data" (data response) ;;
  character_reply <- subscript "reply" (reply d) ;;
  (* Save character's response *)
  save_message (utcnow_outbound env) uid cid (name character)
    character_reply level ;;;
  (* Update favorability *)
  upd <- update_favorability cid ;;
  let new_level := fst upd in
  let level_increased := snd upd in
  (* Get updated favorability for accurate message count *)
  updated_favorability <- get_favorability cid ;;
  let current_message_count :=
    match updated_favorability with
    | Some f => message_count f
    | None => 0
    end in
  (* Check for milestone achievements *)
  let milestone := first_equal current_message_count milestones in
  (* Check for conversation anniversary (days since first message) *)
  first_message <- query (fun db => hd_error (character_timeline cid db)) ;;
  let anniversary :=
    match first_message with
    | Some m =>
        let days_since_first := timedelta_days (now_utc env) (timestamp m) in
        first_equal days_since_first anniversary_milestones
    | None => (false, 0)
    end in
  ret (Success
         {| r_reply := character_reply;
            r_favorability_level := new_level;
            r_level_increased := level_increased;
            r_message_count := current_message_count;
            r_milestone_reached := fst milestone;
            r_milestone_number := snd milestone;
            r_anniversary_reached := fst anniversary;
            r_anniversary_days := snd anniversary;
            r_usage := match usage d with Some u => u | None => JDict [] end |}).

Definition send_message (env : TurnEnv) (uid cid : Z) (user_message : string)
    : M TurnResult :=
  (* Get character and user *)
  character <- get_character cid ;;
  match character with
  | None =>
      raise (ValueError ("Character " ++ str_of_int cid ++ " not found")%string)
  | Some character =>
      user <- query (fun db => find (fun u => user_id u =? uid) (users db)) ;;
      match user with
      | None =>
          raise (ValueError ("User " ++ str_of_int uid ++ " not found")%string)
      | Some user =>
          (* Get favorability *)
          favorability <- get_favorability cid ;;
          let level :=
            match favorability with
            | Some f => current_level f
            | None => 1
            end in
          (* Save user's message *)
          save_message (utcnow_inbound env) uid cid (username user)
            user_message level ;;;
          (* Get conversation history (limited) *)
          history <- get_conversation_history cid (Some MAX_HISTORY_MESSAGES) ;;
          let api_messages := format_messages_for_api history in
          let req := build_request user character level api_messages in
          (* Call API *)
          try_except
            (complete_turn env uid cid character level req)
            (fun e => ret (Failure (exn_str e) (format_exc env e)))
      end
  end.

(** [db.delete(character)] with the [cascade="all, delete-orphan"]
    relationships of [Character]: its messages and its tracker go too. *)
Definition delete_character (cid : Z) : M bool :=
  character <- get_character cid ;;
  match character with
  | None => ret false
  | Some c =>
      commit (fun db =>
        {| users := users db;
           characters :=
             filter (fun x => negb (character_id x =? character_id c))
                    (characters db);
           messages :=
             filter (fun m => negb (m_character_id m =? character_id c))
                    (messages db);
           favorability_tracking :=
             filter (fun f => negb (f_character_id f =? character_id c))
                    (favorability_tracking db) |}) ;;;
      ret true
  end.

(** ** Vocabulary of the statements

    Pure readings of the state that the theorems below relate the
    operations to. *)

(** Timestamp-ascending order. *)
Definition chronological (l : list Message) : Prop :=
  StronglySorted (fun a b => timestamp a <= timestamp b) l.

(** The last [n] rows of [l], all of [l] when it has no more than [n]. *)
Definition most_recent (n : Z) (l : list Message) : list Message :=
  if Z.of_nat (List.length l) >? n
  then skipn (Z.to_nat (Z.of_nat (List.length l) - n)) l
  else l.

(** The tracker row of a character, if any. *)
Definition tracker_of (cid : Z) (db : DB) : option FavorabilityTracking :=
  find (fun f => f_character_id f =? cid) (favorability_tracking db).

(** The level [send_message] tags the messages of a turn with. *)
Definition tracker_level (cid : Z) (db : DB) : Z :=
  match tracker_of cid db with
  | Some f => current_level f
  | None => 1
  end.

(** The authoritative count [send_message] reports. *)
Definition tracker_count (cid : Z) (db : DB) : Z :=
  match tracker_of cid db with
  | Some f => message_count f
  | None => 0
  end.

(** The row [save_message] inserts into [db]. *)
Definition new_message (now uid cid : Z) (speaker content : string)
    (level : Z) (db : DB) : Message :=
  {| message_id := next_id (map message_id (messages db));
     m_user_id := uid; m_character_id := cid;
     speaker_name := speaker; message_content := content;
     timestamp := now; favorability_level := level |}.

Definition add_message (m : Message) (db : DB) : DB :=
  {| users := users db; characters := characters db;
     messages := messages db ++ [m];
     favorability_tracking := favorability_tracking db |}.

(** The tracker row after one increment. *)
Definition advanced (f : FavorabilityTracking) : FavorabilityTracking :=
  {| tracking_id := tracking_id f; f_user_id := f_user_id f;
     f_character_id := f_character_id f;
     current_level := level_for (message_count f + 1);
     message_count := message_count f + 1 |}.

(** The state [update_favorability] leaves. *)
Definition advance (cid : Z) (db : DB) : DB :=
  match tracker_of cid db with
  | None => db
  | Some f =>
      {| users := users db; characters := characters db;
         messages := messages db;
         favorability_tracking :=
           update_tracker (advanced f) (favorability_tracking db) |}
  end.

(** The state of a turn once the inbound message is stored. *)
Definition inbound_state (env : TurnEnv) (uid cid : Z) (u : User)
    (text : string) (db : DB) : DB :=
  add_message
    (new_message (utcnow_inbound env) uid cid (username u) text
       (tracker_level cid db) db) db.

(** The request a turn sends to the gateway. *)
Definition turn_request (env : TurnEnv) (uid cid : Z) (u : User)
    (c : Character) (text : string) (db : DB) : ChatRequest :=
  build_request u c (tracker_level cid db)
    (format_messages_for_api
       (most_recent MAX_HISTORY_MESSAGES
          (character_timeline cid (inbound_state env uid cid u text db)))).

(** The state of a turn once the reply is stored. *)
Definition outbound_state (env : TurnEnv) (uid cid : Z) (u : User)
    (c : Character) (text rep : string) (db : DB) : DB :=
  add_message
    (new_message (utcnow_outbound env) uid cid (name c) rep
       (tracker_level cid db) (inbound_state env uid cid u text db))
    (inbound_state env uid cid u text db).

(** The timestamp of the earliest message of a character, if it has one. *)
Definition first_timestamp (cid : Z) (db : DB) : option Z :=
  option_map timestamp (hd_error (character_timeline cid db)).

(** The result dictionary of a turn that went through: the level and the
    flag come from the tracker as [before] the increment, the count, the
    milestone and the anniversary from the final state [d]. *)
Definition turn_success (env : TurnEnv) (cid : Z) (rep : string)
    (cd : ChatData) (before d : DB) : TurnSuccess :=
  let count := tracker_count cid d in
  let anniversary :=
    match first_timestamp cid d with
    | Some t => first_equal (timedelta_days (now_utc env) t)
                  anniversary_milestones
    | None => (false, 0)
    end in
  {| r_reply := rep;
     r_favorability_level :=
       match tracker_of cid before with
       | Some f => level_for (message_count f + 1)
       | None => 1
       end;
     r_level_increased :=
       match tracker_of cid before with
       | Some f => level_for (message_count f + 1) >? current_level f
       | None => false
       end;
     r_message_count := count;
     r_milestone_reached := fst (first_equal count milestones);
     r_milestone_number := snd (first_equal count milestones);
     r_anniversary_reached := fst anniversary;
     r_anniversary_days := snd anniversary;
     r_usage := match usage cd with Some v => v | None => JDict [] end |}.

(** [get_conversation_history] as the history assembler is described:
    everything when the total fits the window [w], else the tail left
    after dropping the earliest [total - w], exactly [w] rows; and the
    state is not touched. *)
Definition window_claim (cid w : Z) (db : DB) : Prop :=
  let all := character_timeline cid db in
  let total := Z.of_nat (List.length all) in
  (total <= w -> get_conversation_history cid (Some w) db = (Return all, db)) /\
  (total > w ->
   get_conversation_history cid (Some w) db
     = (Return (skipn (Z.to_nat (total - w)) all), db) /\
   Z.of_nat (List.length (skipn (Z.to_nat (total - w)) all)) = w).

(** ** Example data *)

Module Example.

Definition alice : User := {| user_id := 1; username := "Alice" |}.

Definition mei : Character :=
  {| character_id := 1; c_user_id := 1; name := "Mei"; gender := "F";
     identity := Some "florist"; nickname := None;
     detail_setting := Some "gentle"; other_setting := JDict [] |}.

Definition tracker (count level : Z) : FavorabilityTracking :=
  {| tracking_id := 1; f_user_id := 1; f_character_id := 1;
     current_level := level; message_count := count |}.

Definition greeting (ts : Z) : Message :=
  {| message_id := 1; m_user_id := 1; m_character_id := 1;
     speaker_name := "Mei"; message_content := "hello";
     timestamp := ts; favorability_level := 1 |}.

(** Alice and Mei with the tracker at [count] and an empty timeline. *)
Definition db_at (count level : Z) : DB :=
  {| users := [alice]; characters := [mei]; messages := [];
     favorability_tracking := [tracker count level] |}.

(** Alice and Mei with no tracker row. *)
Definition db_untracked : DB :=
  {| users := [alice]; characters := [mei]; messages := [];
     favorability_tracking := [] |}.

(** One greeting from Mei at time 0. *)
Definition db_greeted : DB :=
  {| users := [alice]; characters := [mei]; messages := [greeting 0];
     favorability_tracking := [tracker 0 1] |}.

Definition note (mid ts : Z) : Message :=
  {| message_id := mid; m_user_id := 1; m_character_id := 1;
     speaker_name := "Alice"; message_content := "note";
     timestamp := ts; favorability_level := 1 |}.

(** Three messages, stored out of timestamp order. *)
Definition db_three : DB :=
  {| users := [alice]; characters := [mei];
     messages := [note 1 30; note 2 10; note 3 20];
     favorability_tracking := [tracker 0 1] |}.

Definition clock (now : Z) (gw : ChatRequest -> outcome ChatResponse)
    : TurnEnv :=
  {| create_character_chat := gw;
     utcnow_inbound := now; utcnow_outbound := now + 1;
     now_utc := now + 2;
     format_exc := fun e => ("Traceback: " ++ exn_str e)%string |}.

Definition gw_reply (_ : ChatRequest) : outcome ChatResponse :=
  Return {| data := Some {| reply := Some "hi"; usage := None |} |}.

Definition gw_timeout (_ : ChatRequest) : outcome ChatResponse :=
  Raise (RequestException "timed out").

Definition week : Z := 7 * MICROSECONDS_PER_DAY.

(** A timeline of [n] notes with ids and timestamps 1 to [n]. *)
Definition db_notes (n : nat) : DB :=
  {| users := [alice]; characters := [mei];
     messages := map (fun i => note (Z.of_nat i) (Z.of_nat i)) (seq 1 n);
     favorability_tracking := [tracker 0 1] |}.

(** A turn with an empty text, from a count of 19. *)
Definition empty_turn : outcome TurnResult * DB :=
  send_message (clock 5 gw_reply) 1 1 "" (db_at 19 1).

End Example.

(** ** Reachable states *)

(** The writing operations of the manager, with what each reads from
    outside the database. *)
Inductive op : Type :=
| GetOrCreateUser (uname : string)
| SaveCharacter (json_loads : string -> outcome json) (uid : Z)
    (character_data : CharacterData)
| SaveMessage (now uid cid : Z) (speaker content : string) (level : Z)
| UpdateFavorability (cid : Z)
| SendMessage (env : TurnEnv) (uid cid : Z) (text : string)
| DeleteCharacter (cid : Z).

(** The state an operation leaves, whether it returns or raises. *)
Definition run (o : op) (db : DB) : DB :=
  match o with
  | GetOrCreateUser uname => snd (get_or_create_user uname db)
  | SaveCharacter json_loads uid character_data =>
      snd (save_character json_loads uid character_data db)
  | SaveMessage now uid cid speaker content level =>
      snd (save_message now uid cid speaker content level db)
  | UpdateFavorability cid => snd (update_favorability cid db)
  | SendMessage env uid cid text => snd (send_message env uid cid text db)
  | DeleteCharacter cid => snd (delete_character cid db)
  end.

Inductive reachable : DB -> Prop :=
| reachable_empty : reachable empty_db
| reachable_step (o : op) (db : DB) : reachable db -> reachable (run o db).

(** What one operation can do to the tracker table. *)
Inductive tracker_step (l : list FavorabilityTracking)
    : list FavorabilityTracking -> Prop :=
| step_same : tracker_step l l
| step_new (uid cid : Z) :
    find (fun f => f_character_id f =? cid) l = None ->
    tracker_step l
      (l ++ [{| tracking_id := next_id (map tracking_id l);
                f_user_id := uid; f_character_id := cid;
                current_level := 1; message_count := 0 |}])
| step_advance (cid : Z) (f : FavorabilityTracking) :
    find (fun g => f_character_id g =? cid) l = Some f ->
    tracker_step l (update_tracker (advanced f) l)
| step_delete (cid : Z) :
    tracker_step l (filter (fun f => negb (f_character_id f =? cid)) l).

(** The stored level is the level of the stored count, and the primary
    key and the character id each identify one row. *)
Record tracker_table_ok (l : list FavorabilityTracking) : Prop := {
  level_of_count :
    Forall (fun f => current_level f = level_for (message_count f)) l;
  tracking_id_unique : NoDup (map tracking_id l);
  character_id_unique : NoDup (map f_character_id l)
}.

Module Run.

Definition data : CharacterData :=
  {| cd_name := Some "Mei"; cd_gender := Some "F";
     cd_identity := None; cd_nickname := None;
     cd_detail_setting := None; cd_other_setting := JNull |}.

(** Alice creates Mei, is greeted, and sends one message. *)
Definition db_one_turn : DB :=
  run (SendMessage (Example.clock 5 Example.gw_reply) 1 1 "hey")
    (run (SaveMessage 0 1 1 "Mei" "hello" 1)
       (run (SaveCharacter (fun s => Return (JStr s)) 1 data)
          (run (GetOrCreateUser "Alice") empty_db))).

End Run.

(** ** Further vocabulary: rows and writes *)

(** The row [get_or_create_user] inserts for a new name. *)
Definition new_user (uname : string) (db : DB) : User :=
  {| user_id := next_id (map user_id (users db)); username := uname |}.

Definition add_user (u : User) (db : DB) : DB :=
  {| users := users db ++ [u]; characters := characters db;
     messages := messages db;
     favorability_tracking := favorability_tracking db |}.

(** The exception [save_character] raises while it reads
    [character_data], before its first insert; [None] when the dictionary
    is read through. *)
Definition character_data_error (json_loads : string -> outcome json)
    (character_data : CharacterData) : option exn :=
  match cd_name character_data with
  | None => Some (KeyError "name")
  | Some _ =>
      match cd_gender character_data with
      | None => Some (KeyError "gender")
      | Some _ =>
          match cd_other_setting character_data with
          | JStr s =>
              match json_loads s with
              | Return _ => None
              | Raise e => Some e
              end
          | _ => None
          end
      end
  end.

(** The value stored in the [other_setting] column. *)
Definition stored_other_setting (json_loads : string -> outcome json)
    (character_data : CharacterData) : json :=
  match cd_other_setting character_data with
  | JStr s =>
      match json_loads s with
      | Return v => v
      | Raise _ => JStr s
      end
  | v => v
  end.

(** The row [save_character] inserts into [db]. *)
Definition new_character (json_loads : string -> outcome json) (uid : Z)
    (character_data : CharacterData) (db : DB) : Character :=
  {| character_id := next_id (map character_id (characters db));
     c_user_id := uid;
     name := match cd_name character_data with Some s => s | None => "" end;
     gender := match cd_gender character_data with Some s => s | None => "" end;
     identity := cd_identity character_data;
     nickname := cd_nickname character_data;
     detail_setting := cd_detail_setting character_data;
     other_setting := stored_other_setting json_loads character_data |}.

Definition add_character (c : Character) (db : DB) : DB :=
  {| users := users db; characters := characters db ++ [c];
     messages := messages db;
     favorability_tracking := favorability_tracking db |}.

(** The tracker row [save_character] inserts for character [cid]. *)
Definition new_tracker (uid cid : Z) (db : DB) : FavorabilityTracking :=
  {| tracking_id := next_id (map tracking_id (favorability_tracking db));
     f_user_id := uid; f_character_id := cid;
     current_level := 1; message_count := 0 |}.

Definition add_tracker (f : FavorabilityTracking) (db : DB) : DB :=
  {| users := users db; characters := characters db;
     messages := messages db;
     favorability_tracking := favorability_tracking db ++ [f] |}.

(** The state [delete_character] leaves for an existing character. *)
Definition without_character (cid : Z) (db : DB) : DB :=
  {| users := users db;
     characters := filter (fun x => negb (character_id x =? cid)) (characters db);
     messages := filter (fun m => negb (m_character_id m =? cid)) (messages db);
     favorability_tracking :=
       filter (fun f => negb (f_character_id f =? cid))
         (favorability_tracking db) |}.

(** The character row of an id, if any. *)
Definition character_of (cid : Z) (db : DB) : option Character :=
  find (fun c => character_id c =? cid) (characters db).

(** The user row of an id, if any. *)
Definition user_of (uid : Z) (db : DB) : option User :=
  find (fun x => user_id x =? uid) (users db).

Module Sample.

(** A decoder that rejects everything. *)
Definition no_json (s : string) : outcome json :=
  Raise (JSONDecodeError "Expecting value").

(** A decoder that accepts everything as an empty object. *)
Definition any_json (s : string) : outcome json := Return (JDict []).

(** Character data without a gender. *)
Definition no_gender : CharacterData :=
  {| cd_name := Some "Mei"; cd_gender := None; cd_identity := None;
     cd_nickname := None; cd_detail_setting := None;
     cd_other_setting := JStr "{" |}.

(** Complete character data with an encoded [other_setting]. *)
Definition yui : CharacterData :=
  {| cd_name := Some "Yui"; cd_gender := Some "F";
     cd_identity := Some "student"; cd_nickname := Some "Yu";
     cd_detail_setting := None; cd_other_setting := JStr "{}" |}.

End Sample.

(** ** Further vocabulary: runs of turns *)

(** The same user sending the texts of [turns] to the same character one
    after the other, each turn in its own environment. *)
Fixpoint run_turns (turns : list (TurnEnv * string)) (uid cid : Z) (db : DB)
    : list (outcome TurnResult) * DB :=
  match turns with
  | [] => ([], db)
  | (env, text) :: rest =>
      let (o, db1) := send_message env uid cid text db in
      let (os, db2) := run_turns rest uid cid db1 in
      (o :: os, db2)
  end.

(** The turn returned the success dictionary. *)
Definition is_success (o : outcome TurnResult) : bool :=
  match o with
  | Return (Success _) => true
  | _ => false
  end.

(** The turn returned a dictionary, of success or of failure. *)
Definition is_returned (o : outcome TurnResult) : bool :=
  match o with
  | Return _ => true
  | Raise _ => false
  end.

Definition successes (os : list (outcome TurnResult)) : nat :=
  List.length (filter is_success os).

(** ** Further vocabulary: the store over reachable states *)

(** The writes an operation is made of. *)
Inductive store_step : DB -> DB -> Prop :=
| store_same (db : DB) : store_step db db
| store_add_user (db : DB) (uname : string) :
    find (fun u => String.eqb (username u) uname) (users db) = None ->
    store_step db (add_user (new_user uname db) db)
| store_add_character (db : DB) (json_loads : string -> outcome json)
    (uid : Z) (character_data : CharacterData) :
    let c := new_character json_loads uid character_data db in
    tracker_of (character_id c) db = None ->
    store_step db
      (add_tracker (new_tracker uid (character_id c) db) (add_character c db))
| store_add_character_only (db : DB) (json_loads : string -> outcome json)
    (uid : Z) (character_data : CharacterData) :
    let c := new_character json_loads uid character_data db in
    tracker_of (character_id c) db <> None ->
    store_step db (add_character c db)
| store_add_message (db : DB) (now uid cid : Z) (speaker content : string)
    (level : Z) :
    store_step db
      (add_message (new_message now uid cid speaker content level db) db)
| store_advance (db : DB) (cid : Z) : store_step db (advance cid db)
| store_delete (db : DB) (cid : Z) : store_step db (without_character cid db)
| store_then (db1 db2 db3 : DB) :
    store_step db1 db2 -> store_step db2 db3 -> store_step db1 db3.

(** Keys identify rows, names identify users, trackers and characters go
    in pairs, and counts are not negative. *)
Record store_ok (db : DB) : Prop := {
  trackers_ok : tracker_table_ok (favorability_tracking db);
  user_id_unique : NoDup (map user_id (users db));
  username_unique : NoDup (map username (users db));
  character_key_unique : NoDup (map character_id (characters db));
  message_id_unique : NoDup (map message_id (messages db));
  trackers_match :
    map f_character_id (favorability_tracking db)
    = map character_id (characters db);
  counts_not_negative :
    Forall (fun f => 0 <= message_count f) (favorability_tracking db)
}.

(** ** The gateway client's token cache (api_client.py) *)

Record JwtPayload : Type := {
  iss : string;
  exp : Z;
  nbf : Z
}.

(** [Encoded p k] stands for the text
    [jwt.encode(p, k, headers={"alg": "HS256", "typ": "JWT"})], which is
    never empty. *)
Inductive Jwt : Type :=
| Encoded (payload : JwtPayload) (secret : string).

Definition claims (tok : Jwt) : JwtPayload :=
  match tok with Encoded p _ => p end.

(** The fields of [SenseChatClient] the token code reads and writes. *)
Record SenseChatClient : Type := {
  access_key_id : string;
  secret_access_key : string;
  _token : option Jwt;
  _token_expiry : Z
}.

(** [SenseChatClient()]: no token yet, expiry 0. *)
Definition new_client (key_id secret : string) : SenseChatClient :=
  {| access_key_id := key_id; secret_access_key := secret;
     _token := None; _token_expiry := 0 |}.

(** The three readings of [int(time.time())] one call can make, in the
    order it makes them: in [_get_valid_token], then for ["exp"] and for
    ["nbf"] in [_generate_jwt_token]. *)
Record TokenClock : Type := {
  t_check : Z;
  t_exp : Z;
  t_nbf : Z
}.

Section TokenCache.

(** [settings.TOKEN_EXPIRY_SECONDS]; backend/config.py is not part of
    the sources, so the value is a parameter. *)
Variable TOKEN_EXPIRY_SECONDS : Z.

Definition _generate_jwt_token (self : SenseChatClient) (clk : TokenClock)
    : Jwt :=
  Encoded
    {| iss := access_key_id self;
       exp := t_exp clk + TOKEN_EXPIRY_SECONDS;
       nbf := t_nbf clk - 5 |}
    (secret_access_key self).

Definition _get_valid_token (clk : TokenClock) (self : SenseChatClient)
    : Jwt * SenseChatClient :=
  let current_time := t_check clk in
  let refreshed :=
    let tok := _generate_jwt_token self clk in
    (tok,
     {| access_key_id := access_key_id self;
        secret_access_key := secret_access_key self;
        _token := Some tok;
        _token_expiry := current_time + TOKEN_EXPIRY_SECONDS |}) in
  match _token self with
  | None => refreshed
  | Some tok =>
      (* Refresh token 5 minutes (300 seconds) before expiry *)
      if current_time >=? _token_expiry self - 300 then refreshed
      else (tok, self)
  end.

(** The tokens handed out over a series of calls, each with the clock
    readings of its call. *)
Fixpoint serve_tokens (clks : list TokenClock) (self : SenseChatClient)
    : list (TokenClock * Jwt) :=
  match clks with
  | [] => []
  | clk :: rest =>
      let (tok, self') := _get_valid_token clk self in
      (clk, tok) :: serve_tokens rest self'
  end.

(** The cached expiry is never later than the cached token's own. *)
Definition cache_sound (self : SenseChatClient) : Prop :=
  match _token self with
  | Some tok => _token_expiry self <= exp (claims tok)
  | None => True
  end.

End TokenCache.

Module SampleClock.

Definition at_time (t : Z) : TokenClock :=
  {| t_check := t; t_exp := t; t_nbf := t + 1 |}.

End SampleClock.

(** ** The persistent endpoints (main.py) *)

(** What an endpoint answers: a body, or [HTTPException]. *)
Inductive http (A : Type) : Type :=
| Ok (body : A)
| HTTPException (status_code : Z) (detail : string).
Arguments Ok {A} body.
Arguments HTTPException {A} status_code detail.

(** [try: body except Exception as e:
       raise HTTPException(status_code=500, detail=f"{prefix}{str(e)}")] *)
Definition or_500 {A} (prefix : string) (body : M A) (db : DB)
    : http A * DB :=
  match body db with
  | (Return a, db') => (Ok a, db')
  | (Raise e, db') => (HTTPException 500 (prefix ++ exn_str e)%string, db')
  end.

Record SendMessageRequest : Type := {
  rq_user_id : Z;
  rq_character_id : Z;
  rq_message : string
}.

Definition send_message_v2 (env : TurnEnv) (request : SendMessageRequest)
    : DB -> http TurnResult * DB :=
  or_500 "發送訊息失敗: "
    (send_message env (rq_user_id request) (rq_character_id request)
       (rq_message request)).

(** What [create_character_v2] gets from the character generator and the
    clock: the settings dictionary (or the exception raised while making
    it), the greeting for a character name, the decoder, and the time of
    the greeting's insert. *)
Record CreateEnv : Type := {
  generate_character : outcome CharacterData;
  create_initial_message : string -> string;
  loads : string -> outcome json;
  utcnow_greeting : Z
}.

(** The body of the answer of [create_character_v2]. *)
Record CreatedCharacter : Type := {
  cc_user_id : Z;
  cc_character_id : Z;
  cc_character : Character;
  cc_initial_message : string;
  cc_favorability_level : Z
}.

Definition create_character_v2 (env : CreateEnv) (profile_user_name : string)
    : DB -> http CreatedCharacter * DB :=
  or_500 "角色創建失敗: "
    ((* Get or create user *)
     user <- get_or_create_user profile_user_name ;;
     (* Generate character *)
     character_settings <- (fun db => (generate_character env, db)) ;;
     (* Save character to database *)
     character <- save_character (loads env) (user_id user)
                    character_settings ;;
     (* Generate initial message *)
     settings_name <- subscript "name" (cd_name character_settings) ;;
     let initial_message := create_initial_message env settings_name in
     (* Save initial message *)
     save_message (utcnow_greeting env) (user_id user)
       (character_id character) (name character) initial_message 1 ;;;
     ret {| cc_user_id := user_id user;
            cc_character_id := character_id character;
            cc_character := character;
            cc_initial_message := initial_message;
            cc_favorability_level := 1 |}).

Module SampleCreate.

Definition greet (nm : string) : string := ("Hi, I am " ++ nm)%string.

(** The generator fails. *)
Definition env_failing : CreateEnv :=
  {| generate_character := Raise (RequestException "timed out");
     create_initial_message := greet;
     loads := Sample.any_json;
     utcnow_greeting := 50 |}.

(** The generator returns Yui. *)
Definition env_yui : CreateEnv :=
  {| generate_character := Return Sample.yui;
     create_initial_message := greet;
     loads := Sample.any_json;
     utcnow_greeting := 50 |}.

End SampleCreate.

(** ** The character generator's bounded texts (character_generator.py) *)

(** A Python [str]: its code points, which [len] counts and slices cut. *)
Definition pystr : Type := list Z.

(** The code points of UTF-8 bytes. *)
Fixpoint utf8_decode (bytes : list Z) : pystr :=
  match bytes with
  | [] => []
  | b0 :: rest =>
      if b0 <? 128 then b0 :: utf8_decode rest
      else if b0 <? 224 then
        match rest with
        | b1 :: rest1 =>
            ((b0 - 192) * 64 + (b1 - 128)) :: utf8_decode rest1
        | _ => []
        end
      else if b0 <? 240 then
        match rest with
        | b1 :: b2 :: rest2 =>
            ((b0 - 224) * 4096 + (b1 - 128) * 64 + (b2 - 128))
            :: utf8_decode rest2
        | _ => []
        end
      else
        match rest with
        | b1 :: b2 :: b3 :: rest3 =>
            ((b0 - 240) * 262144 + (b1 - 128) * 4096 + (b2 - 128) * 64
             + (b3 - 128)) :: utf8_decode rest3
        | _ => []
        end
  end.

(** A string literal of the source, read as UTF-8. *)
Definition py (literal : string) : pystr :=
  utf8_decode
    (map (fun a => Z.of_N (Ascii.N_of_ascii a))
       (String.list_ascii_of_string literal)).

(** [sep.join(parts)] *)
Fixpoint join (sep : pystr) (parts : list pystr) : pystr :=
  match parts with
  | [] => []
  | [p] => p
  | p :: rest => p ++ sep ++ join sep rest
  end.

(** The fields of [DreamType] and [CustomMemory] the generator reads.
    backend/models.py is not part of the sources: the fields are typed
    by how the generator uses them, an optional text being false when it
    is [None] or empty. *)
Record DreamType : Type := {
  talking_style : pystr;
  age_range : option pystr;
  occupation : option pystr;
  physical_description : option pystr;
  interests : list pystr
}.

Record CustomMemory : Type := {
  likes : list (pystr * list pystr)
}.

Inductive PersonalityType : Type :=
| GENTLE
| CHEERFUL
| INTELLECTUAL
| CUTE.

(** [if len(s) > limit: s = s[:keep] + "..."] *)
Definition clip (limit keep : nat) (s : pystr) : pystr :=
  if (limit <? List.length s)%nat then firstn keep s ++ py "..." else s.

(** The text [_generate_identity] joins before it checks the length. *)
Definition identity_parts (dream_type : DreamType) : list pystr :=
  (* Add age *)
  (match age_range dream_type with
   | Some (c :: s) => [(c :: s) ++ py "歲"]
   | _ => []
   end) ++
  (* Add occupation *)
  (match occupation dream_type with
   | Some (c :: s) => [c :: s]
   | _ => []
   end) ++
  (* Add brief description *)
  (match physical_description dream_type with
   | Some (c :: s) => [c :: s]
   | _ => []
   end) ++
  (* Add main interest *)
  (match interests dream_type with
   | first :: _ => [py "喜歡" ++ first]
   | [] => []
   end).

Definition _generate_identity (dream_type : DreamType) : pystr :=
  let identity := join (py "，") (identity_parts dream_type) in
  (* Ensure within 200 char limit *)
  clip 200 197 identity.

Definition personality_desc (personality_type : PersonalityType) : pystr :=
  match personality_type with
  | GENTLE => py "性格溫柔體貼，說話輕聲細語，總是關心對方的感受。喜歡用溫暖的話語鼓勵人，細心觀察對方的需要。"
  | CHEERFUL => py "性格活潑開朗，充滿活力和熱情。說話時常帶著笑容，喜歡用輕鬆幽默的方式交流。"
  | INTELLECTUAL => py "性格知性優雅，談吐有內涵。喜歡深度交流，對文化藝術有獨特見解，說話條理清晰。"
  | CUTE => py "性格可愛天真，充滿好奇心。說話俏皮可愛，常常用天真的角度看世界，讓人感到溫暖。"
  end.

(** The pieces [_generate_detail_setting] concatenates. *)
Definition detail_parts (dream_type : DreamType)
    (personality_type : PersonalityType) (custom_memory : CustomMemory)
    : list pystr :=
  (* Add personality description *)
  [personality_desc personality_type] ++
  (* Add talking style *)
  [py "說話風格：" ++ talking_style dream_type ++ py "。"] ++
  (* Add interests *)
  (match interests dream_type with
   | _ :: _ =>
       [py "興趣愛好包括"
        ++ join (py "、") (firstn 3 (interests dream_type)) ++ py "。"]
   | [] => []
   end) ++
  (* Add reference to user's preferences if available *)
  (match likes custom_memory with
   | _ :: _ => [py "會主動關心對方的喜好，並嘗試參與。"]
   | [] => []
   end) ++
  (* Add emphasis on Traditional Chinese and expressive communication *)
  [py "【必須使用繁體中文】對話時會加入生動的動作和表情描述(用括號標註)，讓互動更真實有溫度。"].

Definition _generate_detail_setting (dream_type : DreamType)
    (personality_type : PersonalityType) (custom_memory : CustomMemory)
    : pystr :=
  let detail_setting :=
    join [] (detail_parts dream_type personality_type custom_memory) in
  (* Ensure within 500 char limit *)
  clip 500 497 detail_setting.

Module SampleProfile.

Definition dream : DreamType :=
  {| talking_style := py "溫柔體貼";
     age_range := Some (py "25");
     occupation := Some (py "florist");
     physical_description := None;
     interests := [py "hiking"; py "tea"] |}.

(** A description of 300 letters. *)
Definition wordy : DreamType :=
  {| talking_style := py "溫柔";
     age_range := None;
     occupation := None;
     physical_description := Some (repeat 97 300);
     interests := [] |}.

End SampleProfile.

(** * Properties *)

(** ** The level function *)

Lemma level_for_cases (c : Z) :
  (c < 20 /\ level_for c = 1) \/
  (20 <= c < 50 /\ level_for c = 2) \/
  (50 <= c /\ level_for c = 3).
Proof.
  unfold level_for, LEVEL_3_THRESHOLD, LEVEL_2_THRESHOLD.
  destruct (Z.geb_spec c 50); [right; right; lia|].
  destruct (Z.geb_spec c 20); [right; left; lia | left; lia].
Qed.

Lemma level_for_mono (c c' : Z) : c <= c' -> level_for c <= level_for c'.
Proof.
  intros Hle.
  destruct (level_for_cases c) as [[? ->]|[[? ->]|[? ->]]];
    destruct (level_for_cases c') as [[? ->]|[[? ->]|[? ->]]]; lia.
Qed.

(** C2: for a count [c >= 0] the level is 1 exactly on [0, 20), 2 exactly
    on [20, 50) and 3 exactly from 50 on; it is always one of 1, 2, 3 and
    it never decreases when the count grows. *)
Theorem level_for_tiers (c : Z) (Hc : 0 <= c) :
  (level_for c = 1 <-> 0 <= c < 20) /\
  (level_for c = 2 <-> 20 <= c < 50) /\
  (level_for c = 3 <-> 50 <= c) /\
  In (level_for c) [1; 2; 3] /\
  (forall c', c <= c' -> level_for c <= level_for c').
Proof.
  repeat split; intros;
    try (destruct (level_for_cases c) as [[? Hl]|[[? Hl]|[? Hl]]]; lia).
  - destruct (level_for_cases c) as [[? ->]|[[? ->]|[? ->]]]; simpl; auto.
  - now apply level_for_mono.
Qed.

Lemma level_for_tiers_witness :
  (level_for 20 = 1 <-> 0 <= 20 < 20) /\
  (level_for 20 = 2 <-> 20 <= 20 < 50) /\
  (level_for 20 = 3 <-> 50 <= 20) /\
  In (level_for 20) [1; 2; 3] /\
  (forall c', 20 <= c' -> level_for 20 <= level_for c').
Proof. apply (level_for_tiers 20). lia. Defined.

(** ** Loops with [break] *)

Lemma first_equal_hit (x : Z) (values : list Z) :
  In x values -> first_equal x values = (true, x).
Proof.
  induction values as [|v rest IH]; simpl; [tauto|].
  intros [->|Hin].
  - now rewrite Z.eqb_refl.
  - destruct (Z.eqb_spec x v) as [->|_]; auto.
Qed.

Lemma first_equal_miss (x : Z) (values : list Z) :
  ~ In x values -> first_equal x values = (false, 0).
Proof.
  induction values as [|v rest IH]; simpl; [reflexivity|].
  intros Hn. destruct (Z.eqb_spec x v) as [->|_]; [tauto|].
  apply IH. tauto.
Qed.

Lemma first_equal_spec (x : Z) (values : list Z) :
  (fst (first_equal x values) = true <-> In x values) /\
  (fst (first_equal x values) = true -> snd (first_equal x values) = x) /\
  (fst (first_equal x values) = false -> snd (first_equal x values) = 0).
Proof.
  destruct (in_dec Z.eq_dec x values) as [Hin|Hn].
  - rewrite (first_equal_hit _ _ Hin). simpl. intuition congruence.
  - rewrite (first_equal_miss _ _ Hn). simpl. intuition congruence.
Qed.

(** ** Ordering by timestamp *)

Lemma insert_by_timestamp_perm (m : Message) (l : list Message) :
  Permutation (m :: l) (insert_by_timestamp m l).
Proof.
  induction l as [|x r IH]; simpl; [reflexivity|].
  destruct (timestamp m <=? timestamp x); [reflexivity|].
  rewrite perm_swap. now constructor.
Qed.

Lemma order_by_timestamp_perm (l : list Message) :
  Permutation l (order_by_timestamp l).
Proof.
  induction l as [|x r IH]; simpl; [constructor|].
  rewrite <- insert_by_timestamp_perm. now constructor.
Qed.

Lemma insert_by_timestamp_sorted (m : Message) (l : list Message) :
  chronological l -> chronological (insert_by_timestamp m l).
Proof.
  unfold chronological.
  induction l as [|x r IH]; simpl; intros Hs.
  - repeat constructor.
  - inversion Hs as [|? ? Hr Hall]; subst.
    destruct (Z.leb_spec (timestamp m) (timestamp x)) as [Hle|Hgt].
    + constructor; [assumption|].
      constructor; [assumption|].
      eapply Forall_impl; [|exact Hall]. simpl; intros; lia.
    + constructor; [now apply IH|].
      eapply Permutation_Forall; [apply insert_by_timestamp_perm|].
      constructor; [lia | assumption].
Qed.

Lemma order_by_timestamp_sorted (l : list Message) :
  chronological (order_by_timestamp l).
Proof.
  induction l as [|x r IH]; simpl.
  - constructor.
  - now apply insert_by_timestamp_sorted.
Qed.

Lemma chronological_skipn (n : nat) (l : list Message) :
  chronological l -> chronological (skipn n l).
Proof.
  unfold chronological. revert l.
  induction n as [|n IH]; intros l Hs; simpl; [assumption|].
  destruct l as [|x r]; [constructor|].
  inversion Hs; subst. now apply IH.
Qed.

Lemma chronological_head (x : Message) (l : list Message) :
  chronological (x :: l) -> forall m, In m (x :: l) -> timestamp x <= timestamp m.
Proof.
  intros Hs m [<-|Hin]; [lia|].
  inversion Hs as [|? ? _ Hall]; subst.
  rewrite Forall_forall in Hall. now apply Hall.
Qed.

Lemma character_timeline_In (cid : Z) (db : DB) (m : Message) :
  In m (character_timeline cid db) <->
  In m (messages db) /\ m_character_id m = cid.
Proof.
  unfold character_timeline.
  split.
  - intros Hin.
    apply (Permutation_in _ (Permutation_sym (order_by_timestamp_perm _))) in Hin.
    apply filter_In in Hin. unfold by_character in Hin.
    destruct Hin as [? Heq]. apply Z.eqb_eq in Heq. tauto.
  - intros [Hin Hc].
    apply (Permutation_in _ (order_by_timestamp_perm _)).
    apply filter_In. unfold by_character. split; [assumption|].
    now apply Z.eqb_eq.
Qed.

(** ** Equations of the operations *)

Lemma get_favorability_eq (cid : Z) (db : DB) :
  get_favorability cid db = (Return (tracker_of cid db), db).
Proof. reflexivity. Qed.

Lemma save_message_eq (now uid cid : Z) (speaker content : string)
    (level : Z) (db : DB) :
  save_message now uid cid speaker content level db
  = (Return (new_message now uid cid speaker content level db),
     add_message (new_message now uid cid speaker content level db) db).
Proof. reflexivity. Qed.

Lemma get_conversation_history_eq (cid : Z) (limit : option Z) (db : DB) :
  get_conversation_history cid limit db
  = (Return (match limit with
             | Some n => if n =? 0 then character_timeline cid db
                         else most_recent n (character_timeline cid db)
             | None => character_timeline cid db
             end), db).
Proof.
  unfold get_conversation_history, bind, query, most_recent.
  destruct limit as [n|]; [|reflexivity].
  simpl. destruct (n =? 0); simpl; [reflexivity|].
  destruct (_ >? n); reflexivity.
Qed.

Lemma update_favorability_eq (cid : Z) (db : DB) :
  update_favorability cid db
  = (Return (match tracker_of cid db with
             | Some f => (level_for (message_count f + 1),
                          level_for (message_count f + 1) >? current_level f)
             | None => (1, false)
             end), advance cid db).
Proof.
  unfold update_favorability, bind, advance.
  rewrite get_favorability_eq.
  destruct (tracker_of cid db); reflexivity.
Qed.

Lemma tracker_of_update (cid : Z) (f : FavorabilityTracking)
    (l : list FavorabilityTracking) :
  find (fun g => f_character_id g =? cid) l = Some f ->
  find (fun g => f_character_id g =? cid) (update_tracker (advanced f) l)
  = Some (advanced f).
Proof.
  induction l as [|g r IH]; simpl; [discriminate|].
  destruct (f_character_id g =? cid) eqn:Hg.
  - intros [= ->]. rewrite Z.eqb_refl. simpl. now rewrite Hg.
  - intros Hf. specialize (IH Hf).
    assert (Hcid : (f_character_id f =? cid) = true).
    { apply find_some in Hf. tauto. }
    destruct (tracking_id g =? tracking_id f); simpl.
    + now rewrite Hcid.
    + now rewrite Hg.
Qed.

Lemma tracker_of_advance (cid : Z) (db : DB) :
  tracker_of cid (advance cid db) = option_map advanced (tracker_of cid db).
Proof.
  unfold advance. destruct (tracker_of cid db) as [f|] eqn:Hf.
  - unfold tracker_of in *. simpl. now apply tracker_of_update.
  - now rewrite Hf.
Qed.

(** ** The turn, case by case *)

Section Turn.

Variables (env : TurnEnv) (uid cid : Z) (text : string) (db : DB).

Lemma send_message_no_character :
  get_character cid db = (Return None, db) ->
  send_message env uid cid text db
  = (Raise (ValueError ("Character " ++ str_of_int cid ++ " not found")%string),
     db).
Proof. intros Hc. unfold send_message, bind. now rewrite Hc. Qed.

Lemma send_message_no_user (c : Character) :
  get_character cid db = (Return (Some c), db) ->
  find (fun u => user_id u =? uid) (users db) = None ->
  send_message env uid cid text db
  = (Raise (ValueError ("User " ++ str_of_int uid ++ " not found")%string),
     db).
Proof.
  intros Hc Hu. unfold send_message, bind. rewrite Hc.
  unfold query. now rewrite Hu.
Qed.

Variables (c : Character) (u : User).
Hypothesis Hc : get_character cid db = (Return (Some c), db).
Hypothesis Hu : find (fun x => user_id x =? uid) (users db) = Some u.

Let level := tracker_level cid db.
Let db1 := inbound_state env uid cid u text db.
Let req := turn_request env uid cid u c text db.

Lemma send_message_resolved :
  send_message env uid cid text db
  = try_except (complete_turn env uid cid c level req)
      (fun e => ret (Failure (exn_str e) (format_exc env e))) db1.
Proof.
  unfold send_message. unfold bind at 1. rewrite Hc.
  unfold bind at 1. unfold query at 1. rewrite Hu.
  unfold bind at 1. rewrite get_favorability_eq.
  unfold bind at 1. rewrite save_message_eq.
  unfold bind at 1. rewrite get_conversation_history_eq.
  reflexivity.
Qed.

Lemma complete_turn_gateway_raise (d : DB) (e : exn) :
  create_character_chat env req = Raise e ->
  complete_turn env uid cid c level req d = (Raise e, d).
Proof.
  intros Hg. unfold complete_turn, bind, call_gateway. now rewrite Hg.
Qed.

Lemma complete_turn_no_data (d : DB) (resp : ChatResponse) :
  create_character_chat env req = Return resp ->
  data resp = None ->
  complete_turn env uid cid c level req d = (Raise (KeyError "data"), d).
Proof.
  intros Hg Hd. unfold complete_turn, bind, call_gateway.
  rewrite Hg, Hd. reflexivity.
Qed.

Lemma complete_turn_no_reply (d : DB) (resp : ChatResponse) (cd : ChatData) :
  create_character_chat env req = Return resp ->
  data resp = Some cd ->
  reply cd = None ->
  complete_turn env uid cid c level req d = (Raise (KeyError "reply"), d).
Proof.
  intros Hg Hd Hr. unfold complete_turn, bind, call_gateway.
  rewrite Hg, Hd. simpl. rewrite Hr. reflexivity.
Qed.

Lemma complete_turn_reply (resp : ChatResponse) (cd : ChatData)
    (rep : string) :
  create_character_chat env req = Return resp ->
  data resp = Some cd ->
  reply cd = Some rep ->
  let db2 := outbound_state env uid cid u c text rep db in
  complete_turn env uid cid c level req db1
  = (Return (Success (turn_success env cid rep cd db2 (advance cid db2))),
     advance cid db2).
Proof.
  intros Hg Hd Hr db2. unfold complete_turn.
  unfold bind at 1. unfold call_gateway. rewrite Hg.
  unfold bind at 1. rewrite Hd. simpl subscript. unfold ret at 1.
  unfold bind at 1. rewrite Hr. simpl subscript. unfold ret at 1.
  unfold bind at 1. rewrite save_message_eq.
  fold level db1 db2. change (add_message _ db1) with db2.
  unfold bind at 1. rewrite update_favorability_eq.
  unfold bind at 1. rewrite get_favorability_eq.
  unfold bind at 1. unfold query, ret.
  unfold turn_success, tracker_count, first_timestamp.
  destruct (tracker_of cid db2) as [f|];
    destruct (hd_error (character_timeline cid (advance cid db2)));
    reflexivity.
Qed.

(** Every turn with both ids resolved ends in one of four ways. *)
Lemma send_message_cases :
  (exists e,
      create_character_chat env req = Raise e /\
      send_message env uid cid text db
      = (Return (Failure (exn_str e) (format_exc env e)), db1)) \/
  (exists resp,
      create_character_chat env req = Return resp /\ data resp = None /\
      send_message env uid cid text db
      = (Return (Failure (exn_str (KeyError "data"))
                   (format_exc env (KeyError "data"))), db1)) \/
  (exists resp cd,
      create_character_chat env req = Return resp /\
      data resp = Some cd /\ reply cd = None /\
      send_message env uid cid text db
      = (Return (Failure (exn_str (KeyError "reply"))
                   (format_exc env (KeyError "reply"))), db1)) \/
  (exists resp cd rep,
      create_character_chat env req = Return resp /\
      data resp = Some cd /\ reply cd = Some rep /\
      send_message env uid cid text db
      = (let db2 := outbound_state env uid cid u c text rep db in
         (Return (Success (turn_success env cid rep cd db2 (advance cid db2))),
          advance cid db2))).
Proof.
  rewrite send_message_resolved. unfold try_except.
  destruct (create_character_chat env req) as [resp|e] eqn:Hg.
  - destruct (data resp) as [cd|] eqn:Hd.
    + destruct (reply cd) as [rep|] eqn:Hr.
      * right; right; right. exists resp, cd, rep.
        rewrite (complete_turn_reply resp cd rep Hg Hd Hr). auto.
      * right; right; left. exists resp, cd.
        rewrite (complete_turn_no_reply db1 resp cd Hg Hd Hr). auto.
    + right; left. exists resp.
      rewrite (complete_turn_no_data db1 resp Hg Hd). auto.
  - left. exists e.
    rewrite (complete_turn_gateway_raise db1 e Hg). auto.
Qed.

End Turn.

Lemma get_character_eq (cid : Z) (db : DB) :
  get_character cid db
  = (Return (find (fun c => character_id c =? cid) (characters db)), db).
Proof. reflexivity. Qed.

Lemma advance_messages (cid : Z) (db : DB) :
  messages (advance cid db) = messages db.
Proof. unfold advance. now destruct (tracker_of cid db). Qed.

Lemma advance_untracked (cid : Z) (db : DB) :
  tracker_of cid db = None -> advance cid db = db.
Proof. intros H. unfold advance. now rewrite H. Qed.

(** A turn that returns a success dictionary resolved both ids, got a
    reply from the gateway, and ended in the advanced state. *)
Lemma send_message_success_inv (env : TurnEnv) (uid cid : Z) (text : string)
    (db db' : DB) (r : TurnSuccess) :
  send_message env uid cid text db = (Return (Success r), db') ->
  exists c u cd rep,
    get_character cid db = (Return (Some c), db) /\
    find (fun x => user_id x =? uid) (users db) = Some u /\
    reply cd = Some rep /\
    db' = advance cid (outbound_state env uid cid u c text rep db) /\
    r = turn_success env cid rep cd
          (outbound_state env uid cid u c text rep db) db'.
Proof.
  intros Hs.
  destruct (find (fun c => character_id c =? cid) (characters db)) as [c|] eqn:Hc.
  2:{ rewrite send_message_no_character in Hs; [discriminate|].
      now rewrite get_character_eq, Hc. }
  assert (Hc' : get_character cid db = (Return (Some c), db))
    by now rewrite get_character_eq, Hc.
  destruct (find (fun x => user_id x =? uid) (users db)) as [u|] eqn:Hu.
  2:{ rewrite (send_message_no_user env uid cid text db c Hc' Hu) in Hs.
      discriminate. }
  destruct (send_message_cases env uid cid text db c u Hc' Hu)
    as [(e & _ & He)|[(resp & _ & _ & He)|[(resp & cd & _ & _ & _ & He)
        |(resp & cd & rep & _ & _ & Hr & He)]]];
    rewrite He in Hs; try discriminate.
  cbv zeta in Hs. injection Hs as Hr' Hd'.
  exists c, u, cd, rep. subst. auto.
Qed.

(** ** Gateway failure *)

(** C1: when the gateway call of a turn raises, [send_message] returns the
    failure dictionary with [str(e)] as its error; the inbound message is
    the one row added to the message table (so no outbound row), and the
    tracker table, hence the character's count and level, is as before. *)
Theorem gateway_failure_keeps_inbound (env : TurnEnv) (uid cid : Z)
    (text : string) (db : DB) (c : Character) (u : User) (e : exn)
    (Hc : get_character cid db = (Return (Some c), db))
    (Hu : find (fun x => user_id x =? uid) (users db) = Some u)
    (Hg : create_character_chat env (turn_request env uid cid u c text db)
          = Raise e) :
  exists db',
    send_message env uid cid text db
    = (Return (Failure (exn_str e) (format_exc env e)), db') /\
    messages db'
    = messages db ++
      [new_message (utcnow_inbound env) uid cid (username u) text
         (tracker_level cid db) db] /\
    favorability_tracking db' = favorability_tracking db /\
    tracker_count cid db' = tracker_count cid db /\
    tracker_level cid db' = tracker_level cid db /\
    users db' = users db /\ characters db' = characters db.
Proof.
  exists (inbound_state env uid cid u text db).
  split; [|repeat split].
  rewrite (send_message_resolved env uid cid text db c u Hc Hu).
  unfold try_except.
  now rewrite (complete_turn_gateway_raise env uid cid text db c u _ e Hg).
Qed.

Lemma gateway_failure_keeps_inbound_witness :
  exists db',
    send_message (Example.clock 5 Example.gw_timeout) 1 1 "hey"
      (Example.db_at 19 1)
    = (Return (Failure "timed out" "Traceback: timed out"), db') /\
    messages db'
    = [new_message 5 1 1 "Alice" "hey" 1 (Example.db_at 19 1)] /\
    favorability_tracking db' = [Example.tracker 19 1] /\
    tracker_count 1 db' = 19 /\
    tracker_level 1 db' = 1 /\
    users db' = [Example.alice] /\ characters db' = [Example.mei].
Proof.
  exact (gateway_failure_keeps_inbound
           (Example.clock 5 Example.gw_timeout) 1 1 "hey"
           (Example.db_at 19 1) Example.mei Example.alice
           (RequestException "timed out")
           eq_refl eq_refl eq_refl).
Defined.

(** ** Unknown ids *)

(** C7: when the character id or the user id resolves to no row,
    [send_message] raises the not-found [ValueError] and the state is the
    one it started from: nothing was written. *)
Theorem unknown_id_raises_before_write (env : TurnEnv) (uid cid : Z)
    (text : string) (db : DB)
    (Hmissing :
       find (fun c => character_id c =? cid) (characters db) = None \/
       find (fun x => user_id x =? uid) (users db) = None) :
  (send_message env uid cid text db
   = (Raise (ValueError ("Character " ++ str_of_int cid ++ " not found")%string),
      db)) \/
  (send_message env uid cid text db
   = (Raise (ValueError ("User " ++ str_of_int uid ++ " not found")%string),
      db)).
Proof.
  destruct (find (fun c => character_id c =? cid) (characters db))
    as [c|] eqn:Hc.
  - destruct Hmissing as [|Hu]; [discriminate|].
    right. apply (send_message_no_user env uid cid text db c); [|exact Hu].
    now rewrite get_character_eq, Hc.
  - left. apply send_message_no_character.
    now rewrite get_character_eq, Hc.
Qed.

Lemma unknown_id_raises_before_write_witness :
  (send_message (Example.clock 5 Example.gw_reply) 7 1 "hey"
     (Example.db_at 19 1)
   = (Raise (ValueError "Character 1 not found"), Example.db_at 19 1)) \/
  (send_message (Example.clock 5 Example.gw_reply) 7 1 "hey"
     (Example.db_at 19 1)
   = (Raise (ValueError "User 7 not found"), Example.db_at 19 1)).
Proof.
  exact (unknown_id_raises_before_write
           (Example.clock 5 Example.gw_reply) 7 1 "hey" (Example.db_at 19 1)
           (or_intror eq_refl)).
Defined.

(** ** Empty message text *)

(** C6 as stated fails: an empty text with both ids resolved is not
    rejected.  The turn runs to a success dictionary, two message rows
    are written and the tracker advances from 19 to 20. *)
Lemma empty_text_not_rejected :
  ~ (exists e, fst Example.empty_turn = Raise e) /\
  List.length (messages (snd Example.empty_turn)) = 2%nat /\
  messages (snd Example.empty_turn) <> messages (Example.db_at 19 1) /\
  favorability_tracking (snd Example.empty_turn) = [Example.tracker 20 2] /\
  favorability_tracking (snd Example.empty_turn)
  <> favorability_tracking (Example.db_at 19 1).
Proof.
  vm_compute. repeat split; try discriminate.
  intros [e He]. discriminate.
Qed.

(** C6, amended: [send_message] does not inspect the text.  With both ids
    resolved an empty text is stored like any other: the call returns a
    result dictionary (it does not raise), and the empty inbound message,
    tagged with the level in effect, is appended to the message table
    before anything else the turn writes. *)
Theorem empty_text_is_stored (env : TurnEnv) (uid cid : Z) (db : DB)
    (c : Character) (u : User)
    (Hc : get_character cid db = (Return (Some c), db))
    (Hu : find (fun x => user_id x =? uid) (users db) = Some u) :
  exists res db' rest,
    send_message env uid cid "" db = (Return res, db') /\
    messages db'
    = messages db ++
      new_message (utcnow_inbound env) uid cid (username u) ""
        (tracker_level cid db) db :: rest.
Proof.
  destruct (send_message_cases env uid cid "" db c u Hc Hu)
    as [(e & _ & He)|[(resp & _ & _ & He)|[(resp & cd & _ & _ & _ & He)
        |(resp & cd & rep & _ & _ & _ & He)]]];
    rewrite He; cbv zeta.
  1-3: eexists _, _, []; split; reflexivity.
  eexists _, _, [_]. split; [reflexivity|].
  rewrite advance_messages. simpl. now rewrite <- app_assoc.
Qed.

Lemma empty_text_is_stored_witness :
  exists res db' rest,
    send_message (Example.clock 5 Example.gw_timeout) 1 1 ""
      (Example.db_at 19 1) = (Return res, db') /\
    messages db'
    = [] ++ new_message 5 1 1 "Alice" "" 1 (Example.db_at 19 1) :: rest.
Proof.
  exact (empty_text_is_stored (Example.clock 5 Example.gw_timeout) 1 1
           (Example.db_at 19 1) Example.mei Example.alice eq_refl eq_refl).
Defined.

(** ** Advancing the tracker *)

(** C3: when the character has a tracker row [f], [update_favorability]
    returns the level of the incremented count together with the flag
    "that level is above the level [f] held", and the row read back
    afterwards has the count of [f] plus one and that level; the other
    tables are untouched. *)
Theorem update_favorability_advances (cid : Z) (db : DB)
    (f : FavorabilityTracking)
    (Hf : get_favorability cid db = (Return (Some f), db)) :
  exists db' f',
    update_favorability cid db
    = (Return (level_for (message_count f + 1),
               level_for (message_count f + 1) >? current_level f), db') /\
    get_favorability cid db' = (Return (Some f'), db') /\
    message_count f' = message_count f + 1 /\
    current_level f' = level_for (message_count f + 1) /\
    tracking_id f' = tracking_id f /\
    f_character_id f' = f_character_id f /\
    ((level_for (message_count f + 1) >? current_level f) = true <->
     level_for (message_count f + 1) > current_level f) /\
    users db' = users db /\ characters db' = characters db /\
    messages db' = messages db.
Proof.
  rewrite get_favorability_eq in Hf. injection Hf as Hf.
  exists (advance cid db), (advanced f).
  rewrite update_favorability_eq, get_favorability_eq, tracker_of_advance, Hf.
  repeat split; try reflexivity;
    try (unfold advance; rewrite Hf; reflexivity).
  - intros H. apply Z.gtb_lt in H. lia.
  - intros H. apply Z.gtb_lt. lia.
Qed.

Lemma update_favorability_advances_witness :
  exists db' f',
    update_favorability 1 (Example.db_at 19 1) = (Return (2, true), db') /\
    get_favorability 1 db' = (Return (Some f'), db') /\
    message_count f' = 20 /\
    current_level f' = 2 /\
    tracking_id f' = 1 /\
    f_character_id f' = 1 /\
    (true = true <-> 2 > 1) /\
    users db' = [Example.alice] /\ characters db' = [Example.mei] /\
    messages db' = [].
Proof.
  exact (update_favorability_advances 1 (Example.db_at 19 1)
           (Example.tracker 19 1) eq_refl).
Defined.

(** ** A character without a tracker *)

(** C10: for a character id with no tracker row, [update_favorability]
    returns [(1, False)] and leaves the state as it is; a turn on such a
    character that gets its reply still stores the inbound and the
    outbound message, creates no tracker and reports a count of 0. *)
Theorem untracked_character (cid : Z) (db : DB)
    (Hnone : tracker_of cid db = None) :
  update_favorability cid db = (Return (1, false), db) /\
  (forall env uid text c u resp cd rep,
      get_character cid db = (Return (Some c), db) ->
      find (fun x => user_id x =? uid) (users db) = Some u ->
      create_character_chat env (turn_request env uid cid u c text db)
      = Return resp ->
      data resp = Some cd ->
      reply cd = Some rep ->
      exists r db',
        send_message env uid cid text db = (Return (Success r), db') /\
        messages db'
        = messages db ++
          [new_message (utcnow_inbound env) uid cid (username u) text 1 db;
           new_message (utcnow_outbound env) uid cid (name c) rep 1
             (inbound_state env uid cid u text db)] /\
        favorability_tracking db' = favorability_tracking db /\
        tracker_of cid db' = None /\
        r_message_count r = 0 /\
        r_favorability_level r = 1 /\
        r_level_increased r = false).
Proof.
  split.
  - rewrite update_favorability_eq, Hnone.
    now rewrite (advance_untracked cid db Hnone).
  - intros env uid text c u resp cd rep Hc Hu Hg Hd Hr.
    rewrite (send_message_resolved env uid cid text db c u Hc Hu).
    unfold try_except.
    rewrite (complete_turn_reply env uid cid text db c u resp cd rep Hg Hd Hr).
    cbv zeta.
    assert (Hnone2 : tracker_of cid (outbound_state env uid cid u c text rep db)
                     = None) by exact Hnone.
    rewrite (advance_untracked _ _ Hnone2).
    eexists _, _. split; [reflexivity|].
    unfold turn_success, tracker_count. simpl.
    rewrite Hnone2. unfold tracker_level. rewrite Hnone.
    rewrite <- app_assoc. repeat split.
Qed.

Lemma untracked_character_witness :
  update_favorability 1 Example.db_untracked
  = (Return (1, false), Example.db_untracked) /\
  exists r db',
    send_message (Example.clock 5 Example.gw_reply) 1 1 "hey"
      Example.db_untracked = (Return (Success r), db') /\
    List.length (messages db') = 2%nat /\
    favorability_tracking db' = [] /\
    r_message_count r = 0.
Proof.
  destruct (untracked_character 1 Example.db_untracked eq_refl) as [Hup Hturn].
  split; [exact Hup|].
  destruct (Hturn (Example.clock 5 Example.gw_reply) 1 "hey"%string
              Example.mei Example.alice _ _ "hi"%string
              eq_refl eq_refl eq_refl eq_refl eq_refl)
    as (r & db' & Hs & Hm & Hf & _ & Hcount & _).
  exists r, db'. rewrite Hm, Hf. repeat split; assumption.
Defined.

(** ** Milestones and anniversaries *)

Lemma tracker_of_add_message (cid : Z) (m : Message) (db : DB) :
  tracker_of cid (add_message m db) = tracker_of cid db.
Proof. reflexivity. Qed.

Lemma character_timeline_advance (cid cid' : Z) (db : DB) :
  character_timeline cid (advance cid' db) = character_timeline cid db.
Proof. unfold character_timeline. now rewrite advance_messages. Qed.

Example milestone_near_misses :
  map (fun n => first_equal n milestones) [49; 51; 99; 101; 1001]
  = repeat (false, 0) 5.
Proof. reflexivity. Qed.

(** C4: on a turn that returns a success dictionary, the reported count
    is the tracker's count in the final state (its count before the turn
    plus one, or 0 without a tracker); [milestone_reached] is true exactly
    when that count is one of 50, 100, 200, 500, 1000, and then
    [milestone_number] is that count; otherwise [milestone_number] is 0. *)
Theorem milestone_fires_exactly (env : TurnEnv) (uid cid : Z) (text : string)
    (db db' : DB) (r : TurnSuccess)
    (Hs : send_message env uid cid text db = (Return (Success r), db')) :
  r_message_count r = tracker_count cid db' /\
  tracker_count cid db'
  = match tracker_of cid db with
    | Some f => message_count f + 1
    | None => 0
    end /\
  (r_milestone_reached r = true <->
   In (r_message_count r) [50; 100; 200; 500; 1000]) /\
  (r_milestone_reached r = true -> r_milestone_number r = r_message_count r) /\
  (r_milestone_reached r = false -> r_milestone_number r = 0).
Proof.
  apply send_message_success_inv in Hs.
  destruct Hs as (c & u & cd & rep & _ & _ & _ & Hdb & ->).
  split; [reflexivity|]. split.
  - subst db'. unfold tracker_count. rewrite tracker_of_advance.
    unfold outbound_state, inbound_state.
    rewrite !tracker_of_add_message.
    now destruct (tracker_of cid db).
  - apply (first_equal_spec (tracker_count cid db') milestones).
Qed.

Lemma milestone_fires_exactly_witness :
  exists r db',
    send_message (Example.clock 5 Example.gw_reply) 1 1 "hey"
      (Example.db_at 49 2) = (Return (Success r), db') /\
    r_message_count r = 50 /\
    r_milestone_reached r = true /\
    r_milestone_number r = 50 /\
    (r_milestone_reached r = true <->
     In (r_message_count r) [50; 100; 200; 500; 1000]).
Proof.
  eexists _, _. split; [vm_compute; reflexivity|].
  repeat split;
    apply (milestone_fires_exactly (Example.clock 5 Example.gw_reply) 1 1
             "hey" (Example.db_at 49 2) _ _ eq_refl).
Defined.

Lemma floor_days_in_set (d : Z) :
  In (d / MICROSECONDS_PER_DAY) anniversary_milestones <->
  In (d ÷ MICROSECONDS_PER_DAY) anniversary_milestones.
Proof.
  assert (Hk : 0 < MICROSECONDS_PER_DAY) by reflexivity.
  destruct (Z_le_gt_dec 0 d) as [Hd|Hd].
  - now rewrite Z.quot_div_nonneg.
  - assert (Hfloor : d / MICROSECONDS_PER_DAY < 0)
      by (apply Z.div_lt_upper_bound; lia).
    assert (Htrunc : d ÷ MICROSECONDS_PER_DAY <= 0).
    { replace d with (- - d) by lia.
      rewrite Z.quot_opp_l by lia.
      assert (0 <= (- d) ÷ MICROSECONDS_PER_DAY) by (apply Z.quot_pos; lia).
      lia. }
    unfold anniversary_milestones. simpl. lia.
Qed.

Lemma floor_days_hit (d : Z) :
  In (d / MICROSECONDS_PER_DAY) anniversary_milestones ->
  d / MICROSECONDS_PER_DAY = d ÷ MICROSECONDS_PER_DAY.
Proof.
  intros Hin. assert (Hk : 0 < MICROSECONDS_PER_DAY) by reflexivity.
  destruct (Z_le_gt_dec 0 d) as [Hd|Hd].
  - now rewrite Z.quot_div_nonneg.
  - assert (Hfloor : d / MICROSECONDS_PER_DAY < 0)
      by (apply Z.div_lt_upper_bound; lia).
    unfold anniversary_milestones in Hin. simpl in Hin. lia.
Qed.

(** C8: on a turn that returns a success dictionary the character has a
    first message; with [t0] its timestamp (the least of the character's
    timestamps) and [days] the difference [now - t0] truncated to whole
    days, [anniversary_reached] is true exactly when [days] is one of 7,
    30, 100, 365, and then [anniversary_days] is [days]; otherwise
    [anniversary_days] is 0. *)
Theorem anniversary_fires_exactly (env : TurnEnv) (uid cid : Z)
    (text : string) (db db' : DB) (r : TurnSuccess)
    (Hs : send_message env uid cid text db = (Return (Success r), db')) :
  exists t0,
    first_timestamp cid db' = Some t0 /\
    (exists m, In m (messages db') /\ m_character_id m = cid /\
               timestamp m = t0) /\
    (forall m, In m (messages db') -> m_character_id m = cid ->
               t0 <= timestamp m) /\
    let days := (now_utc env - t0) ÷ MICROSECONDS_PER_DAY in
    (r_anniversary_reached r = true <-> In days [7; 30; 100; 365]) /\
    (r_anniversary_reached r = true -> r_anniversary_days r = days) /\
    (r_anniversary_reached r = false -> r_anniversary_days r = 0).
Proof.
  apply send_message_success_inv in Hs.
  destruct Hs as (c & u & cd & rep & _ & _ & _ & Hdb & ->).
  assert (Hin : In (new_message (utcnow_inbound env) uid cid (username u) text
                      (tracker_level cid db) db)
                   (character_timeline cid db')).
  { apply character_timeline_In. split; [|reflexivity].
    subst db'. rewrite advance_messages. simpl.
    rewrite !in_app_iff. simpl. tauto. }
  unfold turn_success, first_timestamp.
  cbn [r_anniversary_reached r_anniversary_days].
  pose proof (order_by_timestamp_sorted
                (filter (by_character cid) (messages db'))) as Hsorted.
  fold (character_timeline cid db') in Hsorted.
  destruct (character_timeline cid db') as [|m0 rest] eqn:Htl;
    [destruct Hin|].
  exists (timestamp m0). cbn [hd_error option_map]. split; [reflexivity|].
  assert (Hm0 : In m0 (character_timeline cid db'))
    by (rewrite Htl; now left).
  apply character_timeline_In in Hm0.
  split; [exists m0; tauto|]. split.
  - intros m Hm Hcid. apply (chronological_head m0 rest Hsorted).
    rewrite <- Htl. apply character_timeline_In. tauto.
  - unfold timedelta_days. cbv zeta.
    pose proof (first_equal_spec
                  ((now_utc env - timestamp m0) / MICROSECONDS_PER_DAY)
                  anniversary_milestones) as (Hiff & Hhit & Hmiss).
    pose proof (floor_days_in_set (now_utc env - timestamp m0)) as Hset.
    pose proof (floor_days_hit (now_utc env - timestamp m0)) as Heq.
    split; [|split].
    + rewrite Hiff. exact Hset.
    + intros H. rewrite (Hhit H). apply Heq. now apply Hiff.
    + exact Hmiss.
Qed.

Lemma anniversary_fires_exactly_witness :
  exists r db',
    send_message (Example.clock Example.week Example.gw_reply) 1 1 "hey"
      Example.db_greeted = (Return (Success r), db') /\
    r_anniversary_reached r = true /\
    r_anniversary_days r = 7 /\
    exists t0,
      first_timestamp 1 db' = Some t0 /\
      (exists m, In m (messages db') /\ m_character_id m = 1 /\
                 timestamp m = t0) /\
      (forall m, In m (messages db') -> m_character_id m = 1 ->
                 t0 <= timestamp m) /\
      let days := (Example.week + 2 - t0) ÷ MICROSECONDS_PER_DAY in
      (r_anniversary_reached r = true <-> In days [7; 30; 100; 365]) /\
      (r_anniversary_reached r = true -> r_anniversary_days r = days) /\
      (r_anniversary_reached r = false -> r_anniversary_days r = 0).
Proof.
  eexists _, _. split; [vm_compute; reflexivity|].
  split; [reflexivity|]. split; [reflexivity|].
  apply (anniversary_fires_exactly
           (Example.clock Example.week Example.gw_reply) 1 1
           "hey" Example.db_greeted).
  vm_compute. reflexivity.
Defined.

(** ** The history window *)

(** C5 as stated fails for a window of 0: [if limit:] takes 0 for "no
    limit", so a character with three messages gets all three back, not
    the most recent zero. *)
Lemma history_window_zero : ~ window_claim 1 0 Example.db_three.
Proof.
  unfold window_claim. intros [_ Hover].
  destruct Hover as [Hslice _]; [vm_compute; reflexivity|].
  vm_compute in Hslice. discriminate.
Qed.

Example zero_limit_returns_all :
  get_conversation_history 1 (Some 0) Example.db_three
  = (Return [Example.note 2 10; Example.note 3 20; Example.note 1 30],
     Example.db_three).
Proof. reflexivity. Qed.

Example history_150_of_100 :
  option_map (map message_id)
    (match fst (get_conversation_history 1 (Some 100) (Example.db_notes 150))
     with Return l => Some l | Raise _ => None end)
  = Some (map Z.of_nat (seq 51 100)).
Proof. vm_compute. reflexivity. Qed.

Example history_30_of_100 :
  option_map (map message_id)
    (match fst (get_conversation_history 1 (Some 100) (Example.db_notes 30))
     with Return l => Some l | Raise _ => None end)
  = Some (map Z.of_nat (seq 1 30)).
Proof. vm_compute. reflexivity. Qed.

(** C5, amended: for every positive window [w], a total of at most [w]
    gives the character's whole timeline, a larger total gives the
    timeline without its earliest [total - w] rows, exactly [w] rows; the
    timeline is the character's messages in timestamp-ascending order, so
    is the returned slice, and the call leaves the state as it was (hence
    the same slice when run again). *)
Theorem history_window_positive (cid w : Z) (db : DB) (Hw : 0 < w) :
  window_claim cid w db /\
  Permutation (filter (by_character cid) (messages db))
    (character_timeline cid db) /\
  chronological (character_timeline cid db) /\
  exists slice,
    get_conversation_history cid (Some w) db = (Return slice, db) /\
    chronological slice /\
    (forall m, In m slice -> In m (messages db) /\ m_character_id m = cid).
Proof.
  assert (Hnz : (w =? 0) = false) by (apply Z.eqb_neq; lia).
  pose proof (order_by_timestamp_sorted
                (filter (by_character cid) (messages db))) as Hsorted.
  fold (character_timeline cid db) in Hsorted.
  split; [|split; [|split]].
  - unfold window_claim. cbv zeta.
    rewrite get_conversation_history_eq, Hnz. unfold most_recent.
    split.
    + intros Hle. destruct (Z.gtb_spec (Z.of_nat (List.length
                              (character_timeline cid db))) w); [lia|].
      reflexivity.
    + intros Hgt. destruct (Z.gtb_spec (Z.of_nat (List.length
                              (character_timeline cid db))) w); [|lia].
      split; [reflexivity|].
      rewrite length_skipn. lia.
  - apply order_by_timestamp_perm.
  - exact Hsorted.
  - rewrite get_conversation_history_eq, Hnz.
    eexists. split; [reflexivity|].
    unfold most_recent.
    destruct (_ >? w).
    + split; [now apply chronological_skipn|].
      intros m Hm. apply character_timeline_In.
      rewrite <- (firstn_skipn (Z.to_nat (Z.of_nat (List.length
                    (character_timeline cid db)) - w))
                    (character_timeline cid db)).
      apply in_or_app. now right.
    + split; [exact Hsorted|].
      intros m Hm. now apply character_timeline_In.
Qed.

Lemma history_window_positive_witness :
  window_claim 1 2 Example.db_three /\
  Permutation (filter (by_character 1) (messages Example.db_three))
    (character_timeline 1 Example.db_three) /\
  chronological (character_timeline 1 Example.db_three) /\
  exists slice,
    get_conversation_history 1 (Some 2) Example.db_three
    = (Return slice, Example.db_three) /\
    chronological slice /\
    (forall m, In m slice ->
               In m (messages Example.db_three) /\ m_character_id m = 1).
Proof. apply (history_window_positive 1 2 Example.db_three). lia. Defined.

Example history_window_two_of_three :
  get_conversation_history 1 (Some 2) Example.db_three
  = (Return [Example.note 3 20; Example.note 1 30], Example.db_three).
Proof. reflexivity. Qed.

(** ** The tracker table over reachable states *)

(** Reduce a monadic body whose head operations are unfolded. *)
Ltac run_body :=
  unfold bind, subscript, get_favorability, get_character, query, commit,
    ret, raise, try_except;
  cbv beta iota; cbn [fst snd favorability_tracking].

Lemma save_character_trackers (json_loads : string -> outcome json) (uid : Z)
    (character_data : CharacterData) (db : DB) :
  tracker_step (favorability_tracking db)
    (favorability_tracking (snd (save_character json_loads uid character_data db))).
Proof.
  unfold save_character. run_body.
  destruct (cd_name character_data) as [nm|]; run_body; [|apply step_same].
  destruct (cd_gender character_data) as [gd|]; run_body; [|apply step_same].
  destruct (cd_other_setting character_data) as [|b|lit|s|items|fields];
    run_body;
    try (destruct (json_loads s) as [v|e]; run_body; [|apply step_same]);
    match goal with
    | |- context [find ?p ?l] => destruct (find p l) eqn:Hfree
    end; run_body;
    first [apply step_same | now apply step_new].
Qed.

Lemma advance_trackers (cid : Z) (db : DB) :
  tracker_step (favorability_tracking db)
    (favorability_tracking (advance cid db)).
Proof.
  unfold advance. destruct (tracker_of cid db) as [f|] eqn:Hf.
  - apply (step_advance _ cid f). exact Hf.
  - apply step_same.
Qed.

Lemma send_message_trackers (env : TurnEnv) (uid cid : Z) (text : string)
    (db : DB) :
  tracker_step (favorability_tracking db)
    (favorability_tracking (snd (send_message env uid cid text db))).
Proof.
  destruct (find (fun c => character_id c =? cid) (characters db))
    as [c|] eqn:Hc.
  2:{ rewrite send_message_no_character by now rewrite get_character_eq, Hc.
      apply step_same. }
  assert (Hc' : get_character cid db = (Return (Some c), db))
    by now rewrite get_character_eq, Hc.
  destruct (find (fun x => user_id x =? uid) (users db)) as [u|] eqn:Hu.
  2:{ rewrite (send_message_no_user env uid cid text db c Hc' Hu).
      apply step_same. }
  destruct (send_message_cases env uid cid text db c u Hc' Hu)
    as [(e & _ & He)|[(resp & _ & _ & He)|[(resp & cd & _ & _ & _ & He)
        |(resp & cd & rep & _ & _ & _ & He)]]];
    rewrite He; try apply step_same.
  cbv zeta. cbn [snd].
  apply (advance_trackers cid (outbound_state env uid cid u c text rep db)).
Qed.

(** Every operation changes the tracker table by at most one step. *)
Lemma run_trackers (o : op) (db : DB) :
  tracker_step (favorability_tracking db) (favorability_tracking (run o db)).
Proof.
  destruct o as [uname|json_loads uid cdata|now uid cid sp ct lv|cid
                |env uid cid text|cid]; unfold run.
  - unfold get_or_create_user. run_body.
    destruct (find _ (users db)); run_body; apply step_same.
  - apply save_character_trackers.
  - apply step_same.
  - rewrite update_favorability_eq. apply advance_trackers.
  - apply send_message_trackers.
  - unfold delete_character. run_body.
    destruct (find _ (characters db)) as [c|]; run_body.
    + apply step_delete.
    + apply step_same.
Qed.

Lemma keyed_row_unique {A : Type} (key : A -> Z) (l : list A) (a b : A) :
  NoDup (map key l) -> In a l -> In b l -> key a = key b -> a = b.
Proof.
  induction l as [|x r IH]; simpl; [tauto|].
  intros Hnd Ha Hb Hk. inversion Hnd as [|? ? Hx Hr]; subst.
  destruct Ha as [->|Ha], Hb as [->|Hb]; auto.
  - exfalso. apply Hx. rewrite Hk. now apply in_map.
  - exfalso. apply Hx. rewrite <- Hk. now apply in_map.
Qed.

Lemma next_id_fresh (ids : list Z) : ~ In (next_id ids) ids.
Proof.
  assert (Hbound : forall i, In i ids -> i <= fold_right Z.max 0 ids).
  { induction ids as [|x r IH]; simpl; [tauto|].
    intros i [->|Hi]; [lia|]. specialize (IH i Hi). lia. }
  intros Hin. apply Hbound in Hin. unfold next_id in Hin. lia.
Qed.

Lemma find_none_not_in (cid : Z) (l : list FavorabilityTracking) :
  find (fun f => f_character_id f =? cid) l = None ->
  ~ In cid (map f_character_id l).
Proof.
  intros Hnone Hin. apply in_map_iff in Hin. destruct Hin as (f & Hk & Hf).
  apply (find_none _ _ Hnone) in Hf. apply Z.eqb_neq in Hf. auto.
Qed.

(** With unique primary keys the [UPDATE] rewrites the one row it was
    read from. *)
Lemma update_tracker_in (f f' : FavorabilityTracking)
    (l : list FavorabilityTracking) :
  In f' (update_tracker (advanced f) l) ->
  f' = advanced f \/ (In f' l /\ tracking_id f' <> tracking_id f).
Proof.
  unfold update_tracker. intros Hin. apply in_map_iff in Hin.
  destruct Hin as (g & Hg & Hin).
  destruct (Z.eqb_spec (tracking_id g) (tracking_id (advanced f))) as [He|Hne].
  - left. now symmetry.
  - right. subst g. auto.
Qed.

Lemma update_tracker_keys (f : FavorabilityTracking)
    (l : list FavorabilityTracking) :
  map tracking_id (update_tracker (advanced f) l) = map tracking_id l.
Proof.
  unfold update_tracker. rewrite map_map. apply map_ext.
  intros g. destruct (Z.eqb_spec (tracking_id g) (tracking_id (advanced f)));
    [now symmetry|reflexivity].
Qed.

Lemma update_tracker_characters (f : FavorabilityTracking)
    (l : list FavorabilityTracking) :
  NoDup (map tracking_id l) -> In f l ->
  map f_character_id (update_tracker (advanced f) l) = map f_character_id l.
Proof.
  intros Hnd Hf. unfold update_tracker. rewrite map_map.
  apply map_ext_in. intros g Hg.
  destruct (Z.eqb_spec (tracking_id g) (tracking_id (advanced f))) as [He|Hne];
    [|reflexivity].
  simpl in He. now rewrite (keyed_row_unique tracking_id l g f Hnd Hg Hf He).
Qed.

Lemma NoDup_map_filter {A : Type} (key : A -> Z) (p : A -> bool) (l : list A) :
  NoDup (map key l) -> NoDup (map key (filter p l)).
Proof.
  induction l as [|x r IH]; simpl; [auto|].
  intros Hnd. inversion Hnd as [|? ? Hx Hr]; subst.
  destruct (p x); simpl; [|auto].
  constructor; [|auto].
  intros Hin. apply Hx. apply in_map_iff in Hin.
  destruct Hin as (y & Hk & Hy). apply filter_In in Hy.
  apply in_map_iff. exists y. tauto.
Qed.

Lemma tracker_step_ok (l l' : list FavorabilityTracking) :
  tracker_step l l' -> tracker_table_ok l -> tracker_table_ok l'.
Proof.
  intros Hstep [Hlv Htid Hcid].
  destruct Hstep as [|uid cid Hfree|cid f Hf|cid].
  - now split.
  - split.
    + apply Forall_app. split; [assumption|]. repeat constructor.
    + rewrite map_app. simpl. apply NoDup_app; [assumption| |].
      * repeat constructor. auto.
      * intros i Hi [<-|[]]. now apply next_id_fresh in Hi.
    + rewrite map_app. simpl. apply NoDup_app; [assumption| |].
      * repeat constructor. auto.
      * intros i Hi [<-|[]]. now apply (find_none_not_in cid l).
  - assert (Hin : In f l) by (apply find_some in Hf; tauto).
    split.
    + rewrite Forall_forall in *. intros g Hg.
      apply update_tracker_in in Hg. destruct Hg as [->|[Hg _]]; auto.
    + now rewrite update_tracker_keys.
    + now rewrite update_tracker_characters.
  - split.
    + rewrite Forall_forall in *. intros g Hg.
      apply filter_In in Hg. apply Hlv. tauto.
    + now apply NoDup_map_filter.
    + now apply NoDup_map_filter.
Qed.

Lemma reachable_ok (db : DB) :
  reachable db -> tracker_table_ok (favorability_tracking db).
Proof.
  induction 1 as [|o db _ IH].
  - split; simpl; constructor.
  - exact (tracker_step_ok _ _ (run_trackers o db) IH).
Qed.

Lemma tracker_step_mono (l l' : list FavorabilityTracking)
    (f f' : FavorabilityTracking) :
  tracker_step l l' -> tracker_table_ok l ->
  In f l -> In f' l' ->
  tracking_id f = tracking_id f' \/ f_character_id f = f_character_id f' ->
  message_count f <= message_count f'.
Proof.
  intros Hstep [Hlv Htid Hcid] Hf Hf' Hsame.
  assert (Hrow : forall g, In g l ->
            tracking_id f = tracking_id g \/ f_character_id f = f_character_id g ->
            f = g).
  { intros g Hg [Hk|Hk].
    - exact (keyed_row_unique tracking_id l f g Htid Hf Hg Hk).
    - exact (keyed_row_unique f_character_id l f g Hcid Hf Hg Hk). }
  destruct Hstep as [|uid cid Hfree|cid f0 Hf0|cid].
  - rewrite (Hrow f' Hf' Hsame). lia.
  - apply in_app_or in Hf'. destruct Hf' as [Hf'|[<-|[]]].
    + rewrite (Hrow f' Hf' Hsame). lia.
    + exfalso. simpl in Hsame. destruct Hsame as [Hk|Hk].
      * apply (next_id_fresh (map tracking_id l)). rewrite <- Hk.
        now apply in_map.
      * apply (find_none_not_in cid l Hfree). rewrite <- Hk.
        now apply in_map.
  - assert (Hin0 : In f0 l) by (apply find_some in Hf0; tauto).
    apply update_tracker_in in Hf'. destruct Hf' as [->|[Hf' _]].
    + rewrite (Hrow f0 Hin0 Hsame). simpl. lia.
    + rewrite (Hrow f' Hf' Hsame). lia.
  - apply filter_In in Hf'. destruct Hf' as [Hf' _].
    rewrite (Hrow f' Hf' Hsame). lia.
Qed.

(** C9: in every state reachable from the empty store through the
    manager's operations, each tracker row holds the level of its count;
    and across any one operation from such a state a row that is there
    before and after (same primary key, or same character) has a count at
    least as large as before. *)
Theorem reachable_tracker_invariant (db : DB) (Hreach : reachable db) :
  (forall f, In f (favorability_tracking db) ->
             current_level f = level_for (message_count f)) /\
  (forall o f f',
      In f (favorability_tracking db) ->
      In f' (favorability_tracking (run o db)) ->
      tracking_id f = tracking_id f' \/ f_character_id f = f_character_id f' ->
      message_count f <= message_count f').
Proof.
  pose proof (reachable_ok db Hreach) as Hok.
  split.
  - apply Forall_forall. apply (level_of_count _ Hok).
  - intros o f f' Hf Hf' Hsame.
    exact (tracker_step_mono _ _ f f' (run_trackers o db) Hok Hf Hf' Hsame).
Qed.

Lemma one_turn_reachable : reachable Run.db_one_turn.
Proof. unfold Run.db_one_turn. repeat apply reachable_step. apply reachable_empty. Qed.

Lemma reachable_tracker_invariant_witness :
  (forall f, In f (favorability_tracking Run.db_one_turn) ->
             current_level f = level_for (message_count f)) /\
  (forall o f f',
      In f (favorability_tracking Run.db_one_turn) ->
      In f' (favorability_tracking (run o Run.db_one_turn)) ->
      tracking_id f = tracking_id f' \/ f_character_id f = f_character_id f' ->
      message_count f <= message_count f').
Proof.
  exact (reachable_tracker_invariant Run.db_one_turn one_turn_reachable).
Defined.

Example one_turn_state :
  favorability_tracking Run.db_one_turn
  = [{| tracking_id := 1; f_user_id := 1; f_character_id := 1;
        current_level := 1; message_count := 1 |}] /\
  List.length (messages Run.db_one_turn) = 3%nat.
Proof. vm_compute. split; reflexivity. Qed.

(** * Further properties of the manager *)

(** ** Users *)

Lemma find_app {A : Type} (p : A -> bool) (l r : list A) :
  find p (l ++ r)
  = match find p l with Some x => Some x | None => find p r end.
Proof.
  induction l as [|x l IH]; simpl; [reflexivity|].
  destruct (p x); auto.
Qed.

Lemma get_or_create_user_eq (uname : string) (db : DB) :
  get_or_create_user uname db
  = match find (fun u => String.eqb (username u) uname) (users db) with
    | Some u => (Return u, db)
    | None => (Return (new_user uname db), add_user (new_user uname db) db)
    end.
Proof.
  unfold get_or_create_user, bind, query.
  destruct (find _ (users db)); reflexivity.
Qed.

Lemma get_or_create_user_spec (uname : string) (db : DB) :
  exists u db',
    get_or_create_user uname db = (Return u, db') /\
    username u = uname /\
    In u (users db') /\
    (forall v, In v (users db) -> In v (users db')) /\
    characters db' = characters db /\
    messages db' = messages db /\
    favorability_tracking db' = favorability_tracking db /\
    get_or_create_user uname db' = (Return u, db').
Proof.
  rewrite get_or_create_user_eq.
  destruct (find (fun u => String.eqb (username u) uname) (users db))
    as [u|] eqn:Hfind.
  - exists u, db. apply find_some in Hfind as Hu. destruct Hu as [Hin Heq].
    apply String.eqb_eq in Heq.
    rewrite get_or_create_user_eq, Hfind. repeat split; auto.
  - exists (new_user uname db), (add_user (new_user uname db) db).
    repeat split; simpl.
    + apply in_or_app. right. now left.
    + intros v Hv. apply in_or_app. now left.
    + rewrite get_or_create_user_eq. simpl.
      rewrite find_app, Hfind. simpl. now rewrite String.eqb_refl.
Qed.

(** X1: [get_or_create_user] always returns a user row carrying the
    requested name that is stored in the table afterwards; it keeps every
    row that was there, touches no other table, and asking again for the
    same name returns the same row without another write. *)
Theorem get_or_create_user_idempotent (uname : string) (db : DB) :
  exists u db',
    get_or_create_user uname db = (Return u, db') /\
    username u = uname /\
    In u (users db') /\
    (forall v, In v (users db) -> In v (users db')) /\
    characters db' = characters db /\
    messages db' = messages db /\
    favorability_tracking db' = favorability_tracking db /\
    get_or_create_user uname db' = (Return u, db').
Proof. exact (get_or_create_user_spec uname db). Qed.

(** ** Creating a character *)

Lemma save_character_eq (json_loads : string -> outcome json) (uid : Z)
    (character_data : CharacterData) (db : DB) :
  save_character json_loads uid character_data db
  = match character_data_error json_loads character_data with
    | Some e => (Raise e, db)
    | None =>
        let c := new_character json_loads uid character_data db in
        match tracker_of (character_id c) db with
        | Some _ =>
            (Raise (IntegrityError
                      "UNIQUE constraint failed: favorability_tracking.character_id"),
             add_character c db)
        | None =>
            (Return c,
             add_tracker (new_tracker uid (character_id c) db)
               (add_character c db))
        end
    end.
Proof.
  unfold save_character, character_data_error, new_character,
    stored_other_setting, tracker_of.
  unfold bind at 1. unfold subscript at 1.
  destruct (cd_name character_data) as [nm|]; [|reflexivity].
  unfold ret at 1. unfold bind at 1. unfold subscript at 1.
  destruct (cd_gender character_data) as [gd|]; [|reflexivity].
  unfold ret at 1. unfold bind at 1.
  destruct (cd_other_setting character_data) as [|b|lit|s|items|fields];
    try (destruct (json_loads s) as [v|e]; [|reflexivity]);
    unfold ret at 1; unfold bind, get_favorability, query, commit, ret, raise;
    cbv zeta; cbn [favorability_tracking characters character_id];
    match goal with
    | |- context [find ?p (favorability_tracking db)] =>
        destruct (find p (favorability_tracking db))
    end; reflexivity.
Qed.

(** X2: when [character_data] lacks ["name"] or ["gender"], or its
    ["other_setting"] is a string that [json.loads] rejects,
    [save_character] raises that exception ([KeyError] for the first
    missing key, else the decoder's) and nothing has been written. *)
Theorem save_character_rejects_bad_data
    (json_loads : string -> outcome json) (uid : Z)
    (character_data : CharacterData) (db : DB) (e : exn)
    (Hbad : character_data_error json_loads character_data = Some e) :
  save_character json_loads uid character_data db = (Raise e, db) /\
  (cd_name character_data = None -> e = KeyError "name") /\
  (cd_name character_data <> None -> cd_gender character_data = None ->
   e = KeyError "gender").
Proof.
  rewrite save_character_eq, Hbad. split; [reflexivity|].
  unfold character_data_error in Hbad.
  destruct (cd_name character_data); [|split; [congruence|tauto]].
  split; [discriminate|]. intros _ Hg. rewrite Hg in Hbad. congruence.
Qed.

Lemma save_character_rejects_bad_data_witness :
  save_character Sample.no_json 1 Sample.no_gender (Example.db_at 3 1)
  = (Raise (KeyError "gender"), Example.db_at 3 1).
Proof.
  exact (proj1 (save_character_rejects_bad_data Sample.no_json 1
                  Sample.no_gender (Example.db_at 3 1)
                  (KeyError "gender") eq_refl)).
Defined.

(** ** Deleting a character *)

Lemma find_filter_none {A : Type} (p q : A -> bool) (l : list A) :
  (forall x, p x = true -> q x = false) -> find p (filter q l) = None.
Proof.
  intros Hpq. induction l as [|x l IH]; simpl; [reflexivity|].
  destruct (q x) eqn:Hq; [|exact IH]. simpl.
  destruct (p x) eqn:Hp; [|exact IH].
  rewrite (Hpq x Hp) in Hq. discriminate.
Qed.

Lemma find_filter_same {A : Type} (p q : A -> bool) (l : list A) :
  (forall x, p x = true -> q x = true) -> find p (filter q l) = find p l.
Proof.
  intros Hpq. induction l as [|x l IH]; simpl; [reflexivity|].
  destruct (p x) eqn:Hp.
  - rewrite (Hpq x Hp). simpl. now rewrite Hp.
  - destruct (q x); simpl; [now rewrite Hp|exact IH].
Qed.

Lemma filter_filter_none {A : Type} (p q : A -> bool) (l : list A) :
  (forall x, p x = true -> q x = false) -> filter p (filter q l) = [].
Proof.
  intros Hpq. induction l as [|x l IH]; simpl; [reflexivity|].
  destruct (q x) eqn:Hq; [|exact IH]. simpl.
  destruct (p x) eqn:Hp; [|exact IH].
  rewrite (Hpq x Hp) in Hq. discriminate.
Qed.

Lemma filter_filter_same {A : Type} (p q : A -> bool) (l : list A) :
  (forall x, p x = true -> q x = true) -> filter p (filter q l) = filter p l.
Proof.
  intros Hpq. induction l as [|x l IH]; simpl; [reflexivity|].
  destruct (p x) eqn:Hp.
  - rewrite (Hpq x Hp). simpl. now rewrite Hp, IH.
  - destruct (q x); simpl; [now rewrite Hp|exact IH].
Qed.

Lemma same_id_excluded (a b : Z) : (a =? b) = true -> negb (a =? b) = false.
Proof. now intros ->. Qed.

Lemma other_id_kept (a b c : Z) :
  b <> c -> (a =? b) = true -> negb (a =? c) = true.
Proof.
  intros Hne Hab. apply Z.eqb_eq in Hab. subst a.
  apply negb_true_iff. now apply Z.eqb_neq.
Qed.

Lemma delete_character_eq (cid : Z) (db : DB) :
  delete_character cid db
  = match character_of cid db with
    | Some _ => (Return true, without_character cid db)
    | None => (Return false, db)
    end.
Proof.
  unfold delete_character, bind, character_of. rewrite get_character_eq.
  destruct (find _ (characters db)) as [c|] eqn:Hc; [|reflexivity].
  apply find_some in Hc. destruct Hc as [_ Hid]. apply Z.eqb_eq in Hid.
  unfold commit, ret, without_character. now rewrite Hid.
Qed.

(** X3: deleting an existing character returns [True] and takes its row,
    all its messages and its tracker with it; users and the rows of every
    other character are as before; deleting it again returns [False] and
    changes nothing. *)
Theorem delete_character_cascades (cid : Z) (db : DB) (c : Character)
    (Hc : character_of cid db = Some c) :
  exists db',
    delete_character cid db = (Return true, db') /\
    character_of cid db' = None /\
    (forall m, In m (messages db') -> m_character_id m <> cid) /\
    (forall f, In f (favorability_tracking db') -> f_character_id f <> cid) /\
    character_timeline cid db' = [] /\
    tracker_of cid db' = None /\
    users db' = users db /\
    (forall cid', cid' <> cid ->
       character_of cid' db' = character_of cid' db /\
       character_timeline cid' db' = character_timeline cid' db /\
       tracker_of cid' db' = tracker_of cid' db) /\
    delete_character cid db' = (Return false, db').
Proof.
  exists (without_character cid db).
  assert (Hgone : character_of cid (without_character cid db) = None).
  { unfold character_of, without_character. simpl.
    apply find_filter_none. intros x. apply same_id_excluded. }
  rewrite !delete_character_eq, Hc, Hgone.
  repeat split; auto.
  - intros m Hm. unfold without_character in Hm. simpl in Hm.
    apply filter_In in Hm. destruct Hm as [_ Hm].
    apply negb_true_iff in Hm. now apply Z.eqb_neq.
  - intros f Hf. unfold without_character in Hf. simpl in Hf.
    apply filter_In in Hf. destruct Hf as [_ Hf].
    apply negb_true_iff in Hf. now apply Z.eqb_neq.
  - unfold character_timeline, without_character. simpl.
    rewrite filter_filter_none; [reflexivity|].
    intros x. apply same_id_excluded.
  - unfold tracker_of, without_character. simpl.
    apply find_filter_none. intros x. apply same_id_excluded.
  - unfold character_of, without_character. simpl.
    apply find_filter_same. intros x. now apply other_id_kept.
  - unfold character_timeline, without_character. simpl.
    rewrite filter_filter_same; [reflexivity|].
    intros x. now apply other_id_kept.
  - unfold tracker_of, without_character. simpl.
    apply find_filter_same. intros x. now apply other_id_kept.
Qed.

Lemma delete_character_cascades_witness :
  exists db',
    delete_character 1 Example.db_three = (Return true, db') /\
    character_of 1 db' = None /\
    (forall m, In m (messages db') -> m_character_id m <> 1) /\
    (forall f, In f (favorability_tracking db') -> f_character_id f <> 1) /\
    character_timeline 1 db' = [] /\
    tracker_of 1 db' = None /\
    users db' = users Example.db_three /\
    (forall cid', cid' <> 1 ->
       character_of cid' db' = character_of cid' Example.db_three /\
       character_timeline cid' db' = character_timeline cid' Example.db_three /\
       tracker_of cid' db' = tracker_of cid' Example.db_three) /\
    delete_character 1 db' = (Return false, db').
Proof.
  exact (delete_character_cascades 1 Example.db_three Example.mei eq_refl).
Defined.

(** ** Storing a message *)

Lemma filter_app_one {A : Type} (p : A -> bool) (l : list A) (x : A) :
  filter p (l ++ [x]) = filter p l ++ (if p x then [x] else []).
Proof. rewrite filter_app. reflexivity. Qed.

Lemma character_timeline_add_same (cid : Z) (m : Message) (db : DB) :
  m_character_id m = cid ->
  character_timeline cid (add_message m db)
  = order_by_timestamp (filter (by_character cid) (messages db) ++ [m]).
Proof.
  intros Hm. unfold character_timeline, add_message. cbn [messages].
  rewrite filter_app_one.
  replace (by_character cid m) with true; [reflexivity|].
  unfold by_character. symmetry. now apply Z.eqb_eq.
Qed.

Lemma character_timeline_add_other (cid : Z) (m : Message) (db : DB) :
  m_character_id m <> cid ->
  character_timeline cid (add_message m db) = character_timeline cid db.
Proof.
  intros Hm. unfold character_timeline, add_message. cbn [messages].
  rewrite filter_app_one.
  replace (by_character cid m) with false; [now rewrite app_nil_r|].
  unfold by_character. symmetry. now apply Z.eqb_neq.
Qed.

(** X4: [save_message] returns the stored row, whose id is new to the
    table; the unlimited history of its character afterwards is the old
    history with that row added (in timestamp order), the history of
    every other character and the other tables are as before. *)
Theorem save_message_round_trip (now uid cid : Z) (speaker content : string)
    (level : Z) (db : DB) :
  exists m db',
    save_message now uid cid speaker content level db = (Return m, db') /\
    (m_user_id m, m_character_id m, speaker_name m, message_content m,
     timestamp m, favorability_level m)
    = (uid, cid, speaker, content, now, level) /\
    ~ In (message_id m) (map message_id (messages db)) /\
    messages db' = messages db ++ [m] /\
    get_conversation_history cid None db'
    = (Return (character_timeline cid db'), db') /\
    Permutation (m :: character_timeline cid db) (character_timeline cid db') /\
    chronological (character_timeline cid db') /\
    (forall cid', cid' <> cid ->
       character_timeline cid' db' = character_timeline cid' db) /\
    users db' = users db /\ characters db' = characters db /\
    favorability_tracking db' = favorability_tracking db.
Proof.
  rewrite save_message_eq.
  eexists _, _. split; [reflexivity|].
  repeat split.
  - apply next_id_fresh.
  - rewrite character_timeline_add_same by reflexivity.
    rewrite <- order_by_timestamp_perm.
    rewrite <- Permutation_cons_append. constructor.
    symmetry. apply order_by_timestamp_perm.
  - apply order_by_timestamp_sorted.
  - intros cid' Hne. apply character_timeline_add_other.
    cbn [m_character_id new_message]. congruence.
Qed.

(** ** The request of a turn *)

Lemma most_recent_length (n : Z) (l : list Message) :
  0 <= n ->
  Z.of_nat (List.length (most_recent n l)) = Z.min (Z.of_nat (List.length l)) n.
Proof.
  intros Hn. unfold most_recent.
  destruct (Z.gtb_spec (Z.of_nat (List.length l)) n).
  - rewrite length_skipn. lia.
  - lia.
Qed.

Lemma order_by_timestamp_length (l : list Message) :
  List.length (order_by_timestamp l) = List.length l.
Proof. symmetry. apply Permutation_length, order_by_timestamp_perm. Qed.

Lemma insert_by_timestamp_before_last (x m : Message) (s : list Message) :
  timestamp x <= timestamp m ->
  insert_by_timestamp x (s ++ [m]) = insert_by_timestamp x s ++ [m].
Proof.
  intros Hle. induction s as [|y r IH]; simpl.
  - destruct (Z.leb_spec (timestamp x) (timestamp m)); [reflexivity|lia].
  - destruct (timestamp x <=? timestamp y); [reflexivity|].
    now rewrite IH.
Qed.

Lemma order_by_timestamp_latest_last (m : Message) (l : list Message) :
  (forall x, In x l -> timestamp x <= timestamp m) ->
  order_by_timestamp (l ++ [m]) = order_by_timestamp l ++ [m].
Proof.
  induction l as [|x l IH]; intros Hall; simpl; [reflexivity|].
  rewrite IH by (intros y Hy; apply Hall; now right).
  apply insert_by_timestamp_before_last. apply Hall. now left.
Qed.

Lemma most_recent_keeps_last (n : Z) (s : list Message) (m : Message) :
  0 < n -> exists p, most_recent n (s ++ [m]) = p ++ [m].
Proof.
  intros Hn. unfold most_recent. rewrite length_app. simpl.
  destruct (Z.gtb_spec (Z.of_nat (List.length s + 1)) n).
  - exists (skipn (Z.to_nat (Z.of_nat (List.length s + 1) - n)) s).
    rewrite skipn_app.
    replace (Z.to_nat (Z.of_nat (List.length s + 1) - n) - List.length s)%nat
      with 0%nat by lia.
    reflexivity.
  - now exists s.
Qed.

(** X5: with both ids resolved, the request a turn hands to the gateway
    carries between 1 and 100 messages (the window of
    [MAX_HISTORY_MESSAGES]), asks for 1024 new tokens, and gives the
    character's feeling toward the user as the level before the turn. *)
Theorem turn_request_is_bounded (env : TurnEnv) (uid cid : Z) (text : string)
    (db : DB) (c : Character) (u : User)
    (Hc : get_character cid db = (Return (Some c), db))
    (Hu : find (fun x => user_id x =? uid) (users db) = Some u) :
  exists req,
    send_message env uid cid text db
    = try_except
        (complete_turn env uid cid c (tracker_level cid db) req)
        (fun e => ret (Failure (exn_str e) (format_exc env e)))
        (inbound_state env uid cid u text db) /\
    (1 <= List.length (req_messages req) <= 100)%nat /\
    Z.of_nat (List.length (req_messages req))
    = Z.min (Z.of_nat (List.length (character_timeline cid db)) + 1) 100 /\
    max_new_tokens req = 1024 /\
    cs_feeling_toward (snd (character_settings req))
    = [(username u, tracker_level cid db)] /\
    role_setting req
    = {| user_name := username u; primary_bot_name := name c |}.
Proof.
  exists (turn_request env uid cid u c text db).
  split; [exact (send_message_resolved env uid cid text db c u Hc Hu)|].
  assert (Hlen : Z.of_nat (List.length
                   (req_messages (turn_request env uid cid u c text db)))
                 = Z.min (Z.of_nat (List.length (character_timeline cid db)) + 1)
                     100).
  { unfold turn_request, build_request, format_messages_for_api.
    cbn [req_messages]. rewrite length_map.
    rewrite most_recent_length by (unfold MAX_HISTORY_MESSAGES; lia).
    unfold inbound_state.
    rewrite character_timeline_add_same by reflexivity.
    rewrite order_by_timestamp_length, length_app. simpl.
    unfold character_timeline. rewrite order_by_timestamp_length.
    unfold MAX_HISTORY_MESSAGES. lia. }
  repeat split; try exact Hlen; lia.
Qed.

Lemma turn_request_is_bounded_witness :
  exists req,
    send_message (Example.clock 40 Example.gw_reply) 1 1 "hey" Example.db_three
    = try_except
        (complete_turn (Example.clock 40 Example.gw_reply) 1 1 Example.mei
           (tracker_level 1 Example.db_three) req)
        (fun e => ret (Failure (exn_str e)
                         (format_exc (Example.clock 40 Example.gw_reply) e)))
        (inbound_state (Example.clock 40 Example.gw_reply) 1 1 Example.alice
           "hey" Example.db_three) /\
    (1 <= List.length (req_messages req) <= 100)%nat /\
    Z.of_nat (List.length (req_messages req))
    = Z.min (Z.of_nat (List.length (character_timeline 1 Example.db_three)) + 1)
        100 /\
    max_new_tokens req = 1024 /\
    cs_feeling_toward (snd (character_settings req))
    = [(username Example.alice, tracker_level 1 Example.db_three)] /\
    role_setting req
    = {| user_name := username Example.alice;
         primary_bot_name := name Example.mei |}.
Proof.
  exact (turn_request_is_bounded (Example.clock 40 Example.gw_reply) 1 1 "hey"
           Example.db_three Example.mei Example.alice eq_refl eq_refl).
Defined.

(** X6: when the clock at the insert is not behind any stored timestamp
    of the character, the message list of the request ends with the
    user's own message, under the user's name. *)
Theorem turn_request_ends_with_inbound (env : TurnEnv) (uid cid : Z)
    (text : string) (db : DB) (c : Character) (u : User)
    (Hc : get_character cid db = (Return (Some c), db))
    (Hu : find (fun x => user_id x =? uid) (users db) = Some u)
    (Hclock : forall m, In m (messages db) -> m_character_id m = cid ->
                        timestamp m <= utcnow_inbound env) :
  exists req earlier,
    send_message env uid cid text db
    = try_except
        (complete_turn env uid cid c (tracker_level cid db) req)
        (fun e => ret (Failure (exn_str e) (format_exc env e)))
        (inbound_state env uid cid u text db) /\
    req_messages req
    = earlier ++ [{| am_name := username u; am_content := text |}].
Proof.
  exists (turn_request env uid cid u c text db).
  destruct (most_recent_keeps_last MAX_HISTORY_MESSAGES
              (character_timeline cid db)
              (new_message (utcnow_inbound env) uid cid (username u) text
                 (tracker_level cid db) db)) as [p Hp];
    [reflexivity|].
  exists (format_messages_for_api p).
  split; [exact (send_message_resolved env uid cid text db c u Hc Hu)|].
  unfold turn_request, build_request. cbn [req_messages].
  unfold inbound_state.
  rewrite character_timeline_add_same by reflexivity.
  rewrite order_by_timestamp_latest_last.
  - fold (character_timeline cid db). rewrite Hp.
    unfold format_messages_for_api. now rewrite map_app.
  - intros x Hx. apply filter_In in Hx. destruct Hx as [Hin Hcid].
    apply Z.eqb_eq in Hcid. cbn [timestamp new_message]. now apply Hclock.
Qed.

Lemma turn_request_ends_with_inbound_witness :
  exists req earlier,
    send_message (Example.clock 40 Example.gw_reply) 1 1 "hey" Example.db_three
    = try_except
        (complete_turn (Example.clock 40 Example.gw_reply) 1 1 Example.mei
           (tracker_level 1 Example.db_three) req)
        (fun e => ret (Failure (exn_str e)
                         (format_exc (Example.clock 40 Example.gw_reply) e)))
        (inbound_state (Example.clock 40 Example.gw_reply) 1 1 Example.alice
           "hey" Example.db_three) /\
    req_messages req
    = earlier ++ [{| am_name := username Example.alice; am_content := "hey" |}].
Proof.
  apply (turn_request_ends_with_inbound (Example.clock 40 Example.gw_reply)
           1 1 "hey" Example.db_three Example.mei Example.alice eq_refl eq_refl).
  intros m Hm _. simpl in Hm.
  destruct Hm as [<-|[<-|[<-|[]]]]; simpl; lia.
Defined.

(** With the clock behind, the oldest-first window can leave the new
    message out: 100 stored notes stamped 1 to 100 and an insert stamped
    0 give a request of notes 1 to 100 only. *)
Example backdated_inbound_left_out :
  map am_content
    (req_messages
       (turn_request (Example.clock 0 Example.gw_reply) 1 1 Example.alice
          Example.mei "hey" (Example.db_notes 100)))
  = repeat "note" 100.
Proof. vm_compute. reflexivity. Qed.

(** ** Outcomes of a turn *)

(** X7: a gateway response without ["data"], or whose data has no
    ["reply"], ends the turn like a gateway failure: the failure
    dictionary names the missing key, the inbound message is the one row
    added, and the tracker table is as before. *)
Theorem malformed_response_is_failure (env : TurnEnv) (uid cid : Z)
    (text : string) (db : DB) (c : Character) (u : User)
    (resp : ChatResponse)
    (Hc : get_character cid db = (Return (Some c), db))
    (Hu : find (fun x => user_id x =? uid) (users db) = Some u)
    (Hg : create_character_chat env (turn_request env uid cid u c text db)
          = Return resp)
    (Hbad : data resp = None \/
            exists cd, data resp = Some cd /\ reply cd = None) :
  exists key db',
    send_message env uid cid text db
    = (Return (Failure ("'" ++ key ++ "'")%string
                 (format_exc env (KeyError key))), db') /\
    key = match data resp with Some _ => "reply" | None => "data" end /\
    messages db'
    = messages db ++
      [new_message (utcnow_inbound env) uid cid (username u) text
         (tracker_level cid db) db] /\
    favorability_tracking db' = favorability_tracking db /\
    users db' = users db /\ characters db' = characters db.
Proof.
  pose proof (send_message_resolved env uid cid text db c u Hc Hu) as Hs.
  unfold try_except in Hs.
  destruct Hbad as [Hd|(cd & Hd & Hr)].
  - rewrite (complete_turn_no_data env uid cid text db c u _ resp Hg Hd) in Hs.
    exists "data", (inbound_state env uid cid u text db).
    rewrite Hs, Hd. repeat split.
  - rewrite (complete_turn_no_reply env uid cid text db c u _ resp cd Hg Hd Hr)
      in Hs.
    exists "reply", (inbound_state env uid cid u text db).
    rewrite Hs, Hd. repeat split.
Qed.

Lemma malformed_response_is_failure_witness :
  exists key db',
    send_message (Example.clock 5 (fun _ => Return {| data := None |})) 1 1
      "hey" (Example.db_at 19 1)
    = (Return (Failure ("'" ++ key ++ "'")%string
                 ("Traceback: " ++ "'" ++ key ++ "'")%string), db') /\
    key = "data" /\
    messages db'
    = [new_message 5 1 1 "Alice" "hey" 1 (Example.db_at 19 1)] /\
    favorability_tracking db' = [Example.tracker 19 1] /\
    users db' = [Example.alice] /\ characters db' = [Example.mei].
Proof.
  exact (malformed_response_is_failure
           (Example.clock 5 (fun _ => Return {| data := None |})) 1 1 "hey"
           (Example.db_at 19 1) Example.mei Example.alice {| data := None |}
           eq_refl eq_refl eq_refl (or_introl eq_refl)).
Defined.

(** X8: a turn that gets its reply adds exactly two rows, the user's text
    under the user's name and then the reply under the character's name,
    both tagged with the level before the turn; the dictionary returns
    the reply, and its level and count are the tracker's after the
    turn. *)
Theorem completed_turn_rows (env : TurnEnv) (uid cid : Z) (text : string)
    (db : DB) (c : Character) (u : User) (resp : ChatResponse)
    (cd : ChatData) (rep : string)
    (Hc : get_character cid db = (Return (Some c), db))
    (Hu : find (fun x => user_id x =? uid) (users db) = Some u)
    (Hg : create_character_chat env (turn_request env uid cid u c text db)
          = Return resp)
    (Hd : data resp = Some cd)
    (Hr : reply cd = Some rep) :
  exists r db' inbound outbound,
    send_message env uid cid text db = (Return (Success r), db') /\
    messages db' = messages db ++ [inbound; outbound] /\
    (speaker_name inbound, message_content inbound, timestamp inbound)
    = (username u, text, utcnow_inbound env) /\
    (speaker_name outbound, message_content outbound, timestamp outbound)
    = (name c, rep, utcnow_outbound env) /\
    favorability_level inbound = tracker_level cid db /\
    favorability_level outbound = tracker_level cid db /\
    m_character_id inbound = cid /\ m_character_id outbound = cid /\
    r_reply r = rep /\
    r_favorability_level r = tracker_level cid db' /\
    r_message_count r = tracker_count cid db' /\
    users db' = users db /\ characters db' = characters db.
Proof.
  pose proof (send_message_resolved env uid cid text db c u Hc Hu) as Hs.
  unfold try_except in Hs.
  rewrite (complete_turn_reply env uid cid text db c u resp cd rep Hg Hd Hr)
    in Hs.
  cbv zeta in Hs. rewrite Hs.
  eexists _, _, _, _. split; [reflexivity|].
  split.
  { rewrite advance_messages. unfold outbound_state, inbound_state.
    simpl. now rewrite <- app_assoc. }
  repeat split.
  - unfold turn_success, tracker_level. cbn [r_favorability_level].
    rewrite tracker_of_advance.
    change (tracker_of cid (outbound_state env uid cid u c text rep db))
      with (tracker_of cid db).
    now destruct (tracker_of cid db).
  - unfold advance, outbound_state, inbound_state.
    now destruct (tracker_of _ _).
  - unfold advance, outbound_state, inbound_state.
    now destruct (tracker_of _ _).
Qed.

Lemma completed_turn_rows_witness :
  exists r db' inbound outbound,
    send_message (Example.clock 5 Example.gw_reply) 1 1 "hey"
      (Example.db_at 19 1) = (Return (Success r), db') /\
    messages db' = [] ++ [inbound; outbound] /\
    (speaker_name inbound, message_content inbound, timestamp inbound)
    = ("Alice", "hey", 5) /\
    (speaker_name outbound, message_content outbound, timestamp outbound)
    = ("Mei", "hi", 6) /\
    favorability_level inbound = 1 /\
    favorability_level outbound = 1 /\
    m_character_id inbound = 1 /\ m_character_id outbound = 1 /\
    r_reply r = "hi" /\
    r_favorability_level r = tracker_level 1 db' /\
    r_message_count r = tracker_count 1 db' /\
    users db' = [Example.alice] /\ characters db' = [Example.mei].
Proof.
  exact (completed_turn_rows (Example.clock 5 Example.gw_reply) 1 1 "hey"
           (Example.db_at 19 1) Example.mei Example.alice
           {| data := Some {| reply := Some "hi"; usage := None |} |}
           {| reply := Some "hi"; usage := None |} "hi"
           eq_refl eq_refl eq_refl eq_refl eq_refl).
Defined.

Example level_up_turn_is_tagged_with_old_level :
  map favorability_level
    (messages (snd (send_message (Example.clock 5 Example.gw_reply) 1 1 "hey"
                      (Example.db_at 19 1)))) = [1; 1] /\
  tracker_level 1
    (snd (send_message (Example.clock 5 Example.gw_reply) 1 1 "hey"
            (Example.db_at 19 1))) = 2.
Proof. vm_compute. split; reflexivity. Qed.

(** ** Runs of turns *)

Lemma character_timeline_grows (cid : Z) (m : Message) (db : DB) :
  m_character_id m = cid ->
  List.length (character_timeline cid (add_message m db))
  = S (List.length (character_timeline cid db)).
Proof.
  intros Hm. rewrite character_timeline_add_same by assumption.
  unfold character_timeline.
  rewrite !order_by_timestamp_length, length_app. simpl. lia.
Qed.

(** What one turn with both ids resolved does to the character's tracker
    and timeline. *)
Lemma turn_effect (env : TurnEnv) (uid cid : Z) (text : string) (db : DB)
    (c : Character) (u : User) :
  get_character cid db = (Return (Some c), db) ->
  find (fun x => user_id x =? uid) (users db) = Some u ->
  let o := fst (send_message env uid cid text db) in
  let db1 := snd (send_message env uid cid text db) in
  is_returned o = true /\
  get_character cid db1 = (Return (Some c), db1) /\
  find (fun x => user_id x =? uid) (users db1) = Some u /\
  tracker_of cid db1
  = (if is_success o then option_map advanced (tracker_of cid db)
     else tracker_of cid db) /\
  List.length (character_timeline cid db1)
  = (List.length (character_timeline cid db) + 1
     + (if is_success o then 1 else 0))%nat.
Proof.
  intros Hc Hu.
  assert (Hin : List.length
                  (character_timeline cid (inbound_state env uid cid u text db))
                = (List.length (character_timeline cid db) + 1)%nat).
  { unfold inbound_state.
    rewrite character_timeline_grows by reflexivity. lia. }
  rewrite get_character_eq in Hc. injection Hc as Hc.
  destruct (send_message_cases env uid cid text db c u)
    as [(e & _ & He)|[(resp & _ & _ & He)|[(resp & cd & _ & _ & _ & He)
        |(resp & cd & rep & _ & _ & _ & He)]]];
    try (now rewrite get_character_eq, Hc); try assumption;
    rewrite He; cbv zeta; cbn [fst snd is_returned is_success];
    rewrite get_character_eq.
  1-3: repeat split; try assumption; try (now rewrite <- Hc);
       rewrite Hin; lia.
  repeat split.
  - unfold advance, outbound_state, inbound_state.
    destruct (tracker_of _ _); cbn [characters add_message]; now rewrite <- Hc.
  - unfold advance, outbound_state, inbound_state.
    destruct (tracker_of _ _); cbn [users add_message]; assumption.
  - now rewrite tracker_of_advance.
  - rewrite character_timeline_advance. unfold outbound_state.
    rewrite character_timeline_grows by reflexivity.
    rewrite Hin. lia.
Qed.

(** X9: over any run of turns of a resolved user with a character that
    has a tracker, no turn raises, the tracker's count grows by exactly
    the number of turns that returned success, and the character's
    timeline by one row per turn plus one per success. *)
Theorem run_turns_counts (turns : list (TurnEnv * string)) (uid cid : Z)
    (db : DB) (c : Character) (u : User) (f : FavorabilityTracking)
    (Hc : get_character cid db = (Return (Some c), db))
    (Hu : find (fun x => user_id x =? uid) (users db) = Some u)
    (Hf : tracker_of cid db = Some f) :
  let os := fst (run_turns turns uid cid db) in
  let db' := snd (run_turns turns uid cid db) in
  List.length os = List.length turns /\
  forallb is_returned os = true /\
  tracker_count cid db' = message_count f + Z.of_nat (successes os) /\
  tracker_level cid db'
  = (if (0 <? successes os)%nat
     then level_for (message_count f + Z.of_nat (successes os))
     else current_level f) /\
  List.length (character_timeline cid db')
  = (List.length (character_timeline cid db) + List.length turns
     + successes os)%nat.
Proof.
  cbv zeta. revert db f Hc Hu Hf.
  induction turns as [|[env text] rest IH]; intros db f Hc Hu Hf.
  - unfold tracker_count, tracker_level, successes. simpl. rewrite Hf.
    repeat split; lia.
  - destruct (turn_effect env uid cid text db c u Hc Hu)
      as (Hret & Hc1 & Hu1 & Hf1 & Hlen1).
    simpl run_turns.
    destruct (send_message env uid cid text db) as [o db1] eqn:Hs.
    cbn [fst snd] in Hret, Hc1, Hu1, Hf1, Hlen1.
    rewrite Hf in Hf1. cbn [option_map] in Hf1.
    destruct (run_turns rest uid cid db1) as [os db2] eqn:Hrun.
    cbn [fst snd].
    assert (Hf1' : tracker_of cid db1
                   = Some (if is_success o then advanced f else f))
      by (rewrite Hf1; now destruct (is_success o)).
    specialize (IH db1 _ Hc1 Hu1 Hf1'). rewrite Hrun in IH.
    cbn [fst snd] in IH.
    destruct IH as (IHlen & IHret & IHcount & IHlevel & IHrows).
    unfold successes in *. cbn [filter forallb List.length].
    rewrite Hret, IHret, IHlen, IHcount, IHlevel, IHrows, Hlen1.
    destruct (is_success o); cbn [List.length advanced message_count
                                    current_level];
      repeat split; try lia.
    replace (0 <? S (List.length (filter is_success os)))%nat with true
      by reflexivity.
    destruct (List.length (filter is_success os)) as [|k].
    + simpl. f_equal; lia.
    + replace (0 <? S k)%nat with true by reflexivity. f_equal; lia.
Qed.

Lemma run_turns_counts_witness :
  let turns := [(Example.clock 5 Example.gw_reply, "one");
                (Example.clock 8 Example.gw_timeout, "two");
                (Example.clock 9 Example.gw_reply, "three")] in
  let os := fst (run_turns turns 1 1 (Example.db_at 18 1)) in
  let db' := snd (run_turns turns 1 1 (Example.db_at 18 1)) in
  List.length os = 3%nat /\
  forallb is_returned os = true /\
  tracker_count 1 db' = 18 + Z.of_nat (successes os) /\
  tracker_level 1 db'
  = (if (0 <? successes os)%nat
     then level_for (18 + Z.of_nat (successes os))
     else 1) /\
  List.length (character_timeline 1 db')
  = (0 + 3 + successes os)%nat.
Proof.
  exact (run_turns_counts
           [(Example.clock 5 Example.gw_reply, "one");
            (Example.clock 8 Example.gw_timeout, "two");
            (Example.clock 9 Example.gw_reply, "three")] 1 1
           (Example.db_at 18 1) Example.mei Example.alice
           (Example.tracker 18 1) eq_refl eq_refl eq_refl).
Defined.

Example run_turns_reaches_level_two :
  let out := run_turns [(Example.clock 5 Example.gw_reply, "one");
                        (Example.clock 8 Example.gw_timeout, "two");
                        (Example.clock 9 Example.gw_reply, "three")] 1 1
               (Example.db_at 18 1) in
  successes (fst out) = 2%nat /\
  tracker_of 1 (snd out) = Some (Example.tracker 20 2) /\
  List.length (messages (snd out)) = 5%nat.
Proof. vm_compute. repeat split. Qed.

(** ** The store over reachable states *)

Lemma run_store_step (o : op) (db : DB) : store_step db (run o db).
Proof.
  destruct o as [uname|json_loads uid cdata|now uid cid sp ct lv|cid
                |env uid cid text|cid]; unfold run.
  - rewrite get_or_create_user_eq.
    destruct (find _ (users db)) eqn:Hfind; cbn [snd].
    + apply store_same.
    + now apply store_add_user.
  - rewrite save_character_eq.
    destruct (character_data_error json_loads cdata); [apply store_same|].
    cbv zeta.
    destruct (tracker_of _ db) eqn:Htr; cbn [snd].
    + apply store_add_character_only. cbv zeta. congruence.
    + now apply store_add_character.
  - rewrite save_message_eq. apply store_add_message.
  - rewrite update_favorability_eq. apply store_advance.
  - destruct (find (fun c => character_id c =? cid) (characters db))
      as [c|] eqn:Hc.
    2:{ rewrite send_message_no_character by now rewrite get_character_eq, Hc.
        apply store_same. }
    assert (Hc' : get_character cid db = (Return (Some c), db))
      by now rewrite get_character_eq, Hc.
    destruct (find (fun x => user_id x =? uid) (users db)) as [u|] eqn:Hu.
    2:{ rewrite (send_message_no_user env uid cid text db c Hc' Hu).
        apply store_same. }
    destruct (send_message_cases env uid cid text db c u Hc' Hu)
      as [(e & _ & He)|[(resp & _ & _ & He)|[(resp & cd & _ & _ & _ & He)
          |(resp & cd & rep & _ & _ & _ & He)]]];
      rewrite He; cbv zeta; cbn [snd];
      try apply store_add_message.
    eapply store_then; [apply store_add_message|].
    eapply store_then; [apply store_add_message|].
    apply store_advance.
  - rewrite delete_character_eq.
    destruct (character_of cid db); cbn [snd].
    + apply store_delete.
    + apply store_same.
Qed.

Lemma NoDup_map_snoc {A K : Type} (key : A -> K) (l : list A) (x : A) :
  NoDup (map key l) -> ~ In (key x) (map key l) ->
  NoDup (map key (l ++ [x])).
Proof.
  intros Hnd Hx. rewrite map_app. simpl.
  apply NoDup_app; [assumption|repeat constructor; auto|].
  intros a Ha [<-|[]]. contradiction.
Qed.

Lemma map_filter_key {A : Type} (key : A -> Z) (p : Z -> bool) (l : list A) :
  map key (filter (fun x => p (key x)) l) = filter p (map key l).
Proof.
  induction l as [|x l IH]; simpl; [reflexivity|].
  destruct (p (key x)); simpl; now rewrite IH.
Qed.

Lemma find_name_none (uname : string) (l : list User) :
  find (fun u => String.eqb (username u) uname) l = None ->
  ~ In uname (map username l).
Proof.
  intros Hnone Hin. apply in_map_iff in Hin. destruct Hin as (u & Hk & Hu).
  apply (find_none _ _ Hnone) in Hu. apply String.eqb_neq in Hu. auto.
Qed.

Lemma store_step_ok (db db' : DB) :
  store_step db db' -> store_ok db -> store_ok db'.
Proof.
  induction 1 as [db|db uname Hfree|db jl uid cdata c Hfree
                 |db jl uid cdata c Htaken|db now uid cid sp ct lv|db cid
                 |db cid|db1 db2 db3 _ IH1 _ IH2];
    intros Hok; auto.
  - destruct Hok as [Htr Huid Hname Hcid Hmid Hmatch Hcount].
    split; simpl; auto.
    + apply NoDup_map_snoc; [assumption|apply next_id_fresh].
    + apply NoDup_map_snoc; [assumption|now apply find_name_none].
  - destruct Hok as [Htr Huid Hname Hcid Hmid Hmatch Hcount].
    split; simpl; auto.
    + apply (tracker_step_ok (favorability_tracking db)); [|assumption].
      apply (step_new _ uid (character_id c)). exact Hfree.
    + apply NoDup_map_snoc; [assumption|apply next_id_fresh].
    + rewrite !map_app, Hmatch. reflexivity.
    + apply Forall_app. split; [assumption|].
      repeat constructor. simpl. lia.
  - exfalso. destruct Hok as [_ _ _ _ _ Hmatch _].
    destruct (tracker_of (character_id c) db) as [f|] eqn:Hf; [|congruence].
    apply find_some in Hf. destruct Hf as [Hin Hid]. apply Z.eqb_eq in Hid.
    apply (next_id_fresh (map character_id (characters db))).
    assert (Hkey : In (f_character_id f)
                     (map f_character_id (favorability_tracking db)))
      by now apply in_map.
    rewrite Hid, Hmatch in Hkey. exact Hkey.
  - destruct Hok as [Htr Huid Hname Hcid Hmid Hmatch Hcount].
    split; simpl; auto.
    apply NoDup_map_snoc; [assumption|apply next_id_fresh].
  - pose proof (advance_trackers cid db) as Hstep.
    destruct Hok as [Htr Huid Hname Hcid Hmid Hmatch Hcount].
    unfold advance in *.
    destruct (tracker_of cid db) as [f|] eqn:Hf; [|now split].
    assert (Hin : In f (favorability_tracking db))
      by (apply find_some in Hf; tauto).
    split; simpl; auto.
    + exact (tracker_step_ok _ _ Hstep Htr).
    + rewrite update_tracker_characters; [assumption| |assumption].
      apply (tracking_id_unique _ Htr).
    + rewrite Forall_forall in *. intros g Hg.
      apply update_tracker_in in Hg. destruct Hg as [->|[Hg _]]; auto.
      specialize (Hcount f Hin). simpl. lia.
  - destruct Hok as [Htr Huid Hname Hcid Hmid Hmatch Hcount].
    split; simpl; auto.
    + apply (tracker_step_ok (favorability_tracking db)); [|assumption].
      apply step_delete.
    + now apply NoDup_map_filter.
    + now apply NoDup_map_filter.
    + rewrite (map_filter_key f_character_id (fun k => negb (k =? cid))).
      rewrite (map_filter_key character_id (fun k => negb (k =? cid))).
      now rewrite Hmatch.
    + rewrite Forall_forall in *. intros g Hg.
      apply filter_In in Hg. apply Hcount. tauto.
Qed.

Lemma reachable_store_ok (db : DB) : reachable db -> store_ok db.
Proof.
  induction 1 as [|o db _ IH].
  - split; simpl; try (split; simpl); constructor.
  - exact (store_step_ok _ _ (run_store_step o db) IH).
Qed.

(** X10: in every reachable state no two rows of a table share their
    primary key and no two users share a name: the lookups by id, and
    [get_or_create_user] by name, have one row to find. *)
Theorem reachable_keys_unique (db : DB) (Hreach : reachable db) :
  NoDup (map user_id (users db)) /\
  NoDup (map username (users db)) /\
  NoDup (map character_id (characters db)) /\
  NoDup (map message_id (messages db)) /\
  NoDup (map tracking_id (favorability_tracking db)).
Proof.
  destruct (reachable_store_ok db Hreach)
    as [Htr Huid Hname Hcid Hmid Hmatch Hcount].
  repeat split; try assumption. apply (tracking_id_unique _ Htr).
Qed.

Lemma reachable_keys_unique_witness :
  NoDup (map user_id (users Run.db_one_turn)) /\
  NoDup (map username (users Run.db_one_turn)) /\
  NoDup (map character_id (characters Run.db_one_turn)) /\
  NoDup (map message_id (messages Run.db_one_turn)) /\
  NoDup (map tracking_id (favorability_tracking Run.db_one_turn)).
Proof. exact (reachable_keys_unique Run.db_one_turn one_turn_reachable). Defined.

Lemma find_key_in {A : Type} (key : A -> Z) (l : list A) (k : Z) :
  In k (map key l) -> exists x, find (fun y => key y =? k) l = Some x.
Proof.
  induction l as [|y l IH]; simpl; [tauto|].
  destruct (Z.eqb_spec (key y) k) as [Heq|Hne]; [eauto|].
  intros [Hk|Hk]; [contradiction|auto].
Qed.

(** X11: in every reachable state characters and trackers go in pairs:
    each character has a tracker, each tracker belongs to a character
    that exists, and no character has two. *)
Theorem reachable_one_tracker_per_character (db : DB)
    (Hreach : reachable db) :
  (forall c, In c (characters db) ->
     exists f, tracker_of (character_id c) db = Some f) /\
  (forall f, In f (favorability_tracking db) ->
     exists c, character_of (f_character_id f) db = Some c) /\
  NoDup (map f_character_id (favorability_tracking db)) /\
  List.length (favorability_tracking db) = List.length (characters db).
Proof.
  destruct (reachable_store_ok db Hreach)
    as [Htr Huid Hname Hcid Hmid Hmatch Hcount].
  repeat split.
  - intros c Hc. apply (find_key_in f_character_id).
    rewrite Hmatch. now apply in_map.
  - intros f Hf. apply (find_key_in character_id).
    rewrite <- Hmatch. now apply in_map.
  - apply (character_id_unique _ Htr).
  - rewrite <- (length_map f_character_id), Hmatch. apply length_map.
Qed.

Lemma reachable_one_tracker_per_character_witness :
  (forall c, In c (characters Run.db_one_turn) ->
     exists f, tracker_of (character_id c) Run.db_one_turn = Some f) /\
  (forall f, In f (favorability_tracking Run.db_one_turn) ->
     exists c, character_of (f_character_id f) Run.db_one_turn = Some c) /\
  NoDup (map f_character_id (favorability_tracking Run.db_one_turn)) /\
  List.length (favorability_tracking Run.db_one_turn)
  = List.length (characters Run.db_one_turn).
Proof.
  exact (reachable_one_tracker_per_character Run.db_one_turn one_turn_reachable).
Defined.

(** X12: in every reachable state each tracker's count is at least 0 and
    its level is 1, 2 or 3. *)
Theorem reachable_tracker_bounds (db : DB) (Hreach : reachable db) :
  Forall (fun f => 0 <= message_count f /\ In (current_level f) [1; 2; 3])
    (favorability_tracking db).
Proof.
  destruct (reachable_store_ok db Hreach)
    as [Htr Huid Hname Hcid Hmid Hmatch Hcount].
  pose proof (level_of_count _ Htr) as Hlv.
  rewrite Forall_forall in *. intros f Hf. split; [auto|].
  rewrite (Hlv f Hf).
  destruct (level_for_cases (message_count f)) as [[? ->]|[[? ->]|[? ->]]];
    simpl; auto.
Qed.

Lemma reachable_tracker_bounds_witness :
  Forall (fun f => 0 <= message_count f /\ In (current_level f) [1; 2; 3])
    (favorability_tracking Run.db_one_turn).
Proof. exact (reachable_tracker_bounds Run.db_one_turn one_turn_reachable). Defined.

Lemma find_key_fresh {A : Type} (key : A -> Z) (l : list A) (k : Z) :
  ~ In k (map key l) -> find (fun y => key y =? k) l = None.
Proof.
  induction l as [|y l IH]; simpl; [reflexivity|].
  intros Hk. destruct (Z.eqb_spec (key y) k) as [Heq|Hne]; [tauto|].
  apply IH. tauto.
Qed.

Lemma save_character_pair (json_loads : string -> outcome json)
    (uid : Z) (character_data : CharacterData) (db : DB)
    (Hreach : reachable db)
    (Hdata : character_data_error json_loads character_data = None) :
  exists c f db',
    save_character json_loads uid character_data db = (Return c, db') /\
    ~ In (character_id c) (map character_id (characters db)) /\
    cd_name character_data = Some (name c) /\
    cd_gender character_data = Some (gender c) /\
    c_user_id c = uid /\
    character_of (character_id c) db' = Some c /\
    tracker_of (character_id c) db' = Some f /\
    current_level f = 1 /\ message_count f = 0 /\
    (forall cid', cid' <> character_id c ->
       character_of cid' db' = character_of cid' db /\
       tracker_of cid' db' = tracker_of cid' db) /\
    users db' = users db /\ messages db' = messages db.
Proof.
  pose proof (reachable_store_ok db Hreach) as Hok.
  set (c := new_character json_loads uid character_data db).
  assert (Hfresh : ~ In (character_id c) (map character_id (characters db)))
    by apply next_id_fresh.
  assert (Hfree : tracker_of (character_id c) db = None).
  { unfold tracker_of. apply find_key_fresh.
    now rewrite (trackers_match _ Hok). }
  exists c, (new_tracker uid (character_id c) db),
    (add_tracker (new_tracker uid (character_id c) db) (add_character c db)).
  rewrite save_character_eq, Hdata. cbv zeta. fold c. rewrite Hfree.
  unfold character_data_error in Hdata.
  destruct (cd_name character_data) as [nm|] eqn:Hnm; [|discriminate].
  destruct (cd_gender character_data) as [gd|] eqn:Hgd; [|discriminate].
  repeat split; try assumption.
  - unfold c, new_character. now rewrite Hnm.
  - unfold c, new_character. now rewrite Hgd.
  - unfold character_of, add_tracker, add_character. cbn [characters].
    rewrite find_app, (find_key_fresh character_id _ _ Hfresh).
    simpl. now rewrite Z.eqb_refl.
  - unfold tracker_of, add_tracker, add_character in *.
    cbn [favorability_tracking] in *.
    rewrite find_app, Hfree. simpl. now rewrite Z.eqb_refl.
  - unfold character_of, add_tracker, add_character. cbn [characters].
    rewrite find_app. destruct (find _ (characters db)); [reflexivity|].
    cbn [find].
    destruct (Z.eqb_spec (character_id c) cid'); [congruence|reflexivity].
  - unfold tracker_of, add_tracker, add_character.
    cbn [favorability_tracking].
    rewrite find_app. destruct (find _ (favorability_tracking db));
      [reflexivity|].
    cbn [find f_character_id new_tracker].
    destruct (Z.eqb_spec (character_id c) cid'); [congruence|reflexivity].
Qed.

(** X13: in every reachable state, [save_character] with data that reads
    through returns a character under an id no character had, never the
    integrity error; the character and a tracker at level 1 with count 0
    can be read back under that id, and the rows of every other
    character, the users and the messages are as before. *)
Theorem save_character_creates_pair (json_loads : string -> outcome json)
    (uid : Z) (character_data : CharacterData) (db : DB)
    (Hreach : reachable db)
    (Hdata : character_data_error json_loads character_data = None) :
  exists c f db',
    save_character json_loads uid character_data db = (Return c, db') /\
    ~ In (character_id c) (map character_id (characters db)) /\
    cd_name character_data = Some (name c) /\
    cd_gender character_data = Some (gender c) /\
    c_user_id c = uid /\
    character_of (character_id c) db' = Some c /\
    tracker_of (character_id c) db' = Some f /\
    current_level f = 1 /\ message_count f = 0 /\
    (forall cid', cid' <> character_id c ->
       character_of cid' db' = character_of cid' db /\
       tracker_of cid' db' = tracker_of cid' db) /\
    users db' = users db /\ messages db' = messages db.
Proof.
  exact (save_character_pair json_loads uid character_data db Hreach Hdata).
Qed.

Lemma save_character_creates_pair_witness :
  exists c f db',
    save_character Sample.any_json 1 Sample.yui Run.db_one_turn
    = (Return c, db') /\
    ~ In (character_id c) (map character_id (characters Run.db_one_turn)) /\
    cd_name Sample.yui = Some (name c) /\
    cd_gender Sample.yui = Some (gender c) /\
    c_user_id c = 1 /\
    character_of (character_id c) db' = Some c /\
    tracker_of (character_id c) db' = Some f /\
    current_level f = 1 /\ message_count f = 0 /\
    (forall cid', cid' <> character_id c ->
       character_of cid' db' = character_of cid' Run.db_one_turn /\
       tracker_of cid' db' = tracker_of cid' Run.db_one_turn) /\
    users db' = users Run.db_one_turn /\
    messages db' = messages Run.db_one_turn.
Proof.
  exact (save_character_creates_pair Sample.any_json 1 Sample.yui
           Run.db_one_turn one_turn_reachable eq_refl).
Defined.

(** ** Level changes and other characters *)

Lemma level_step (c : Z) :
  0 <= c ->
  (level_for (c + 1) > level_for c <-> c + 1 = 20 \/ c + 1 = 50).
Proof.
  intros Hc.
  destruct (level_for_cases c) as [[? ->]|[[? ->]|[? ->]]];
    destruct (level_for_cases (c + 1)) as [[? ->]|[[? ->]|[? ->]]]; lia.
Qed.

(** X14: from a reachable state, a turn that returns success reports
    [level_increased] exactly when the count it reports is 20 or 50. *)
Theorem level_increases_exactly_at_thresholds (env : TurnEnv) (uid cid : Z)
    (text : string) (db db' : DB) (r : TurnSuccess)
    (Hreach : reachable db)
    (Hs : send_message env uid cid text db = (Return (Success r), db')) :
  r_level_increased r = true <->
  r_message_count r = 20 \/ r_message_count r = 50.
Proof.
  pose proof (reachable_store_ok db Hreach) as Hok.
  apply send_message_success_inv in Hs.
  destruct Hs as (c & u & cd & rep & _ & _ & _ & -> & ->).
  unfold turn_success, tracker_count.
  cbn [r_level_increased r_message_count].
  rewrite tracker_of_advance.
  change (tracker_of cid (outbound_state env uid cid u c text rep db))
    with (tracker_of cid db).
  destruct (tracker_of cid db) as [f|] eqn:Hf; cbn [option_map].
  - apply find_some in Hf. destruct Hf as [Hin _].
    pose proof (level_of_count _ (trackers_ok _ Hok)) as Hlv.
    pose proof (counts_not_negative _ Hok) as Hcount.
    rewrite Forall_forall in Hlv, Hcount.
    rewrite (Hlv f Hin). cbn [message_count advanced].
    rewrite <- (level_step (message_count f) (Hcount f Hin)).
    rewrite Z.gtb_ltb, Z.ltb_lt. lia.
  - split; [discriminate|lia].
Qed.

Lemma level_increases_exactly_at_thresholds_witness :
  exists r db',
    send_message (Example.clock 9 Example.gw_reply) 1 1 "again"
      Run.db_one_turn = (Return (Success r), db') /\
    (r_level_increased r = true <->
     r_message_count r = 20 \/ r_message_count r = 50).
Proof.
  eexists _, _. split; [vm_compute; reflexivity|].
  eapply (level_increases_exactly_at_thresholds
            (Example.clock 9 Example.gw_reply) 1 1 "again" Run.db_one_turn).
  - exact one_turn_reachable.
  - vm_compute. reflexivity.
Defined.

Lemma tracker_of_update_other (cid' : Z) (f : FavorabilityTracking)
    (l : list FavorabilityTracking) :
  (forall g, In g l -> tracking_id g = tracking_id f ->
             f_character_id g = f_character_id f) ->
  f_character_id f <> cid' ->
  find (fun g => f_character_id g =? cid') (update_tracker (advanced f) l)
  = find (fun g => f_character_id g =? cid') l.
Proof.
  intros Hrow Hne. induction l as [|g r IH]; simpl; [reflexivity|].
  assert (IH' := IH (fun x Hx => Hrow x (or_intror Hx))).
  destruct (Z.eqb_spec (tracking_id g) (tracking_id f)) as [Heq|_].
  - rewrite (Hrow g (or_introl eq_refl) Heq). simpl.
    destruct (Z.eqb_spec (f_character_id f) cid'); [contradiction|exact IH'].
  - destruct (f_character_id g =? cid'); [reflexivity|exact IH'].
Qed.

Lemma tracker_of_advance_other (cid cid' : Z) (db : DB) :
  NoDup (map tracking_id (favorability_tracking db)) ->
  cid' <> cid ->
  tracker_of cid' (advance cid db) = tracker_of cid' db.
Proof.
  intros Hnd Hne. unfold advance.
  destruct (tracker_of cid db) as [f|] eqn:Hf; [|reflexivity].
  apply find_some in Hf. destruct Hf as [Hin Hid]. apply Z.eqb_eq in Hid.
  unfold tracker_of. cbn [favorability_tracking].
  apply tracker_of_update_other; [|congruence].
  intros g Hg Hk.
  now rewrite (keyed_row_unique tracking_id _ g f Hnd Hg Hin Hk).
Qed.

(** X15: from a reachable state, whatever a turn on one character does,
    the tracker and the timeline of every other character, the users and
    the characters are as before. *)
Theorem turn_leaves_other_characters (env : TurnEnv) (uid cid cid' : Z)
    (text : string) (db : DB)
    (Hreach : reachable db) (Hother : cid' <> cid) :
  let db' := snd (send_message env uid cid text db) in
  tracker_of cid' db' = tracker_of cid' db /\
  character_timeline cid' db' = character_timeline cid' db /\
  users db' = users db /\ characters db' = characters db.
Proof.
  pose proof (tracking_id_unique _ (trackers_ok _ (reachable_store_ok db Hreach)))
    as Hnd.
  cbv zeta.
  destruct (find (fun c => character_id c =? cid) (characters db))
    as [c|] eqn:Hc.
  2:{ rewrite send_message_no_character by now rewrite get_character_eq, Hc.
      auto. }
  assert (Hc' : get_character cid db = (Return (Some c), db))
    by now rewrite get_character_eq, Hc.
  destruct (find (fun x => user_id x =? uid) (users db)) as [u|] eqn:Hu.
  2:{ rewrite (send_message_no_user env uid cid text db c Hc' Hu). auto. }
  assert (Hin : character_timeline cid' (inbound_state env uid cid u text db)
                = character_timeline cid' db).
  { unfold inbound_state. apply character_timeline_add_other.
    cbn [m_character_id new_message]. congruence. }
  destruct (send_message_cases env uid cid text db c u Hc' Hu)
    as [(e & _ & He)|[(resp & _ & _ & He)|[(resp & cd & _ & _ & _ & He)
        |(resp & cd & rep & _ & _ & _ & He)]]];
    rewrite He; cbv zeta; cbn [snd]; try (repeat split; assumption).
  repeat split.
  - rewrite tracker_of_advance_other; [reflexivity|exact Hnd|exact Hother].
  - rewrite character_timeline_advance. unfold outbound_state.
    rewrite character_timeline_add_other; [exact Hin|].
    cbn [m_character_id new_message]. congruence.
  - unfold advance, outbound_state, inbound_state.
    now destruct (tracker_of _ _).
  - unfold advance, outbound_state, inbound_state.
    now destruct (tracker_of _ _).
Qed.

Lemma turn_leaves_other_characters_witness :
  let db' := snd (send_message (Example.clock 9 Example.gw_reply) 1 1 "again"
                    Run.db_one_turn) in
  tracker_of 2 db' = tracker_of 2 Run.db_one_turn /\
  character_timeline 2 db' = character_timeline 2 Run.db_one_turn /\
  users db' = users Run.db_one_turn /\
  characters db' = characters Run.db_one_turn.
Proof.
  apply (turn_leaves_other_characters (Example.clock 9 Example.gw_reply)
           1 1 2 "again" Run.db_one_turn one_turn_reachable).
  lia.
Defined.

(** * The token cache *)

Section TokenCacheFacts.

Variable TOKEN_EXPIRY_SECONDS : Z.

Lemma get_valid_token_sound (clk : TokenClock) (self : SenseChatClient) :
  300 < TOKEN_EXPIRY_SECONDS ->
  t_check clk <= t_exp clk ->
  cache_sound self ->
  t_check clk + 300
  < exp (claims (fst (_get_valid_token TOKEN_EXPIRY_SECONDS clk self))) /\
  cache_sound (snd (_get_valid_token TOKEN_EXPIRY_SECONDS clk self)).
Proof.
  intros Hlife Hclk Hsound. unfold _get_valid_token, cache_sound in *.
  destruct (_token self) as [tok|] eqn:Htok.
  - destruct (Z.geb_spec (t_check clk) (_token_expiry self - 300)).
    + simpl. lia.
    + cbn [fst snd]. rewrite Htok. lia.
  - simpl. lia.
Qed.

End TokenCacheFacts.

(** X16: with a token lifetime above 300 seconds and a clock that does
    not run backwards within a call, every token a client hands out,
    over any series of calls from its creation, has more than 300 seconds
    left before its ["exp"] at the moment the call checked the time. *)
Theorem served_tokens_have_margin (TOKEN_EXPIRY_SECONDS : Z)
    (key_id secret : string) (clks : list TokenClock)
    (Hlife : 300 < TOKEN_EXPIRY_SECONDS)
    (Hclock : Forall (fun clk => t_check clk <= t_exp clk) clks) :
  Forall (fun served => t_check (fst served) + 300
                        < exp (claims (snd served)))
    (serve_tokens TOKEN_EXPIRY_SECONDS clks (new_client key_id secret)).
Proof.
  assert (Hgen : forall self, cache_sound self ->
            Forall (fun served => t_check (fst served) + 300
                                  < exp (claims (snd served)))
              (serve_tokens TOKEN_EXPIRY_SECONDS clks self)).
  { induction Hclock as [|clk rest Hclk _ IH]; intros self Hsound; simpl.
    - constructor.
    - destruct (get_valid_token_sound TOKEN_EXPIRY_SECONDS clk self
                  Hlife Hclk Hsound) as [Hmargin Hsound'].
      destruct (_get_valid_token TOKEN_EXPIRY_SECONDS clk self)
        as [tok self'].
      constructor; [exact Hmargin|]. apply IH. exact Hsound'. }
  apply Hgen. exact I.
Qed.

Lemma served_tokens_have_margin_witness :
  Forall (fun served => t_check (fst served) + 300
                        < exp (claims (snd served)))
    (serve_tokens 1800
       [SampleClock.at_time 100; SampleClock.at_time 900;
        SampleClock.at_time 1600; SampleClock.at_time 50]
       (new_client "key" "secret")).
Proof.
  apply (served_tokens_have_margin 1800 "key" "secret").
  - lia.
  - repeat constructor; simpl; lia.
Defined.

(** X17: after a call on a new client has made a token at time [t1], a
    second call at time [t2] returns that same token and leaves the
    cache alone while [t2 < t1 + TOKEN_EXPIRY_SECONDS - 300]; from that
    moment on it signs a new token and moves the cached expiry to
    [t2 + TOKEN_EXPIRY_SECONDS]. *)
Theorem token_reused_until_margin (TOKEN_EXPIRY_SECONDS : Z)
    (key_id secret : string) (clk1 clk2 : TokenClock) :
  let first := _get_valid_token TOKEN_EXPIRY_SECONDS clk1
                 (new_client key_id secret) in
  let second := _get_valid_token TOKEN_EXPIRY_SECONDS clk2 (snd first) in
  fst first = _generate_jwt_token TOKEN_EXPIRY_SECONDS
                (new_client key_id secret) clk1 /\
  (t_check clk2 < t_check clk1 + TOKEN_EXPIRY_SECONDS - 300 ->
   second = first) /\
  (t_check clk1 + TOKEN_EXPIRY_SECONDS - 300 <= t_check clk2 ->
   fst second = _generate_jwt_token TOKEN_EXPIRY_SECONDS
                  (new_client key_id secret) clk2 /\
   _token (snd second) = Some (fst second) /\
   _token_expiry (snd second) = t_check clk2 + TOKEN_EXPIRY_SECONDS).
Proof.
  cbv zeta. unfold _get_valid_token. simpl.
  split; [reflexivity|]. split; intros Ht.
  - destruct (Z.geb_spec (t_check clk2)
                (t_check clk1 + TOKEN_EXPIRY_SECONDS - 300)); [lia|].
    reflexivity.
  - destruct (Z.geb_spec (t_check clk2)
                (t_check clk1 + TOKEN_EXPIRY_SECONDS - 300)); [|lia].
    repeat split.
Qed.

Example token_refresh_schedule :
  map (fun served => exp (claims (snd served)))
    (serve_tokens 1800
       [SampleClock.at_time 100; SampleClock.at_time 900;
        SampleClock.at_time 1599; SampleClock.at_time 1600;
        SampleClock.at_time 1700]
       (new_client "key" "secret"))
  = [1900; 1900; 1900; 3400; 3400].
Proof. reflexivity. Qed.

(** * The endpoints *)

(** X18: the send-message endpoint answers with an HTTP error only when
    the character id or the user id is unknown, and then with status 500,
    the not-found text in the detail, and nothing written; with both ids
    known it always answers with a body, a gateway failure included. *)
Theorem send_message_v2_status (env : TurnEnv) (request : SendMessageRequest)
    (db : DB) :
  (character_of (rq_character_id request) db = None ->
   send_message_v2 env request db
   = (HTTPException 500
        ("發送訊息失敗: " ++ "Character "
         ++ str_of_int (rq_character_id request) ++ " not found")%string,
      db)) /\
  (character_of (rq_character_id request) db <> None ->
   user_of (rq_user_id request) db = None ->
   send_message_v2 env request db
   = (HTTPException 500
        ("發送訊息失敗: " ++ "User "
         ++ str_of_int (rq_user_id request) ++ " not found")%string,
      db)) /\
  (character_of (rq_character_id request) db <> None ->
   user_of (rq_user_id request) db <> None ->
   exists body db',
     send_message_v2 env request db = (Ok body, db') /\
     send_message env (rq_user_id request) (rq_character_id request)
       (rq_message request) db = (Return body, db')).
Proof.
  unfold send_message_v2, or_500, character_of, user_of.
  destruct request as [uid cid text]. cbn [rq_user_id rq_character_id rq_message].
  destruct (find (fun c => character_id c =? cid) (characters db))
    as [c|] eqn:Hc.
  2:{ split; [|split]; try congruence. intros _.
      rewrite send_message_no_character by now rewrite get_character_eq, Hc.
      reflexivity. }
  assert (Hc' : get_character cid db = (Return (Some c), db))
    by now rewrite get_character_eq, Hc.
  split; [discriminate|].
  destruct (find (fun x => user_id x =? uid) (users db)) as [u|] eqn:Hu.
  2:{ split; [|congruence]. intros _ _.
      now rewrite (send_message_no_user env uid cid text db c Hc' Hu). }
  split; [discriminate|]. intros _ _.
  destruct (send_message_cases env uid cid text db c u Hc' Hu)
    as [(e & _ & He)|[(resp & _ & _ & He)|[(resp & cd & _ & _ & _ & He)
        |(resp & cd & rep & _ & _ & _ & He)]]];
    rewrite He; cbv zeta; eauto.
Qed.

Example send_message_v2_gateway_failure_is_a_body :
  fst (send_message_v2 (Example.clock 5 Example.gw_timeout)
         {| rq_user_id := 1; rq_character_id := 1; rq_message := "hey" |}
         (Example.db_at 19 1))
  = Ok (Failure "timed out" "Traceback: timed out").
Proof. reflexivity. Qed.

Lemma create_character_v2_eq (env : CreateEnv) (uname : string) (db : DB) :
  create_character_v2 env uname db
  = let user := fst (get_or_create_user uname db) in
    let db1 := snd (get_or_create_user uname db) in
    match user with
    | Raise e => (HTTPException 500 ("角色創建失敗: " ++ exn_str e)%string, db1)
    | Return u =>
        match generate_character env with
        | Raise e =>
            (HTTPException 500 ("角色創建失敗: " ++ exn_str e)%string, db1)
        | Return settings =>
            match save_character (loads env) (user_id u) settings db1 with
            | (Raise e, db2) =>
                (HTTPException 500 ("角色創建失敗: " ++ exn_str e)%string,
                 db2)
            | (Return c, db2) =>
                match cd_name settings with
                | None =>
                    (HTTPException 500
                       ("角色創建失敗: " ++ exn_str (KeyError "name"))%string,
                     db2)
                | Some nm =>
                    (Ok {| cc_user_id := user_id u;
                           cc_character_id := character_id c;
                           cc_character := c;
                           cc_initial_message := create_initial_message env nm;
                           cc_favorability_level := 1 |},
                     add_message
                       (new_message (utcnow_greeting env) (user_id u)
                          (character_id c) (name c)
                          (create_initial_message env nm) 1 db2) db2)
                end
            end
        end
    end.
Proof.
  unfold create_character_v2, or_500. cbv zeta.
  unfold bind at 1.
  destruct (get_or_create_user uname db) as [[u|e] db1]; [|reflexivity].
  cbn [fst snd]. unfold bind at 1.
  destruct (generate_character env) as [settings|e]; [|reflexivity].
  unfold bind at 1.
  destruct (save_character (loads env) (user_id u) settings db1)
    as [[c|e] db2]; [|reflexivity].
  unfold bind at 1. unfold subscript.
  destruct (cd_name settings) as [nm|]; [|reflexivity].
  unfold ret at 1. unfold bind. rewrite save_message_eq. reflexivity.
Qed.

(** X19: when the generator raises, or returns settings that
    [save_character] rejects, the create-character endpoint answers with
    status 500 and that exception's text, and the only thing it has
    written is the user row, if the name was new: the user stays although
    no character was made. *)
Theorem create_character_v2_failure_keeps_user (env : CreateEnv)
    (uname : string) (db : DB) (e : exn)
    (Hfail : generate_character env = Raise e \/
             exists settings,
               generate_character env = Return settings /\
               character_data_error (loads env) settings = Some e) :
  exists u,
    create_character_v2 env uname db
    = (HTTPException 500 ("角色創建失敗: " ++ exn_str e)%string,
       snd (get_or_create_user uname db)) /\
    get_or_create_user uname db
    = (Return u, snd (get_or_create_user uname db)) /\
    username u = uname /\
    In u (users (snd (get_or_create_user uname db))) /\
    characters (snd (get_or_create_user uname db)) = characters db /\
    messages (snd (get_or_create_user uname db)) = messages db /\
    favorability_tracking (snd (get_or_create_user uname db))
    = favorability_tracking db.
Proof.
  destruct (get_or_create_user_spec uname db)
    as (u & db1 & Hu & Hname & Hin & _ & Hch & Hms & Htr & _).
  exists u. rewrite create_character_v2_eq. cbv zeta. rewrite Hu.
  cbn [fst snd]. repeat split; try assumption.
  destruct Hfail as [Hgen|(settings & Hgen & Hbad)]; rewrite Hgen.
  - reflexivity.
  - rewrite save_character_eq, Hbad. reflexivity.
Qed.

Lemma create_character_v2_failure_keeps_user_witness :
  exists u,
    create_character_v2 SampleCreate.env_failing "Bob" empty_db
    = (HTTPException 500 ("角色創建失敗: " ++ "timed out")%string,
       snd (get_or_create_user "Bob" empty_db)) /\
    get_or_create_user "Bob" empty_db
    = (Return u, snd (get_or_create_user "Bob" empty_db)) /\
    username u = "Bob" /\
    In u (users (snd (get_or_create_user "Bob" empty_db))) /\
    characters (snd (get_or_create_user "Bob" empty_db)) = [] /\
    messages (snd (get_or_create_user "Bob" empty_db)) = [] /\
    favorability_tracking (snd (get_or_create_user "Bob" empty_db)) = [].
Proof.
  exact (create_character_v2_failure_keeps_user SampleCreate.env_failing
           "Bob" empty_db (RequestException "timed out")
           (or_introl eq_refl)).
Defined.

Lemma get_or_create_user_reachable (uname : string) (db : DB) :
  reachable db -> reachable (snd (get_or_create_user uname db)).
Proof. intros H. exact (reachable_step (GetOrCreateUser uname) db H). Qed.

(** X20: from a reachable state, when the generator returns settings
    that read through, the create-character endpoint answers with a
    body: its user carries the requested name, its character is stored
    under the returned id with a tracker at level 1 and count 0, and the
    greeting for the character's name is in the character's history,
    spoken by the character and tagged with level 1. *)
Theorem create_character_v2_creates (env : CreateEnv) (uname : string)
    (db : DB) (settings : CharacterData)
    (Hreach : reachable db)
    (Hgen : generate_character env = Return settings)
    (Hdata : character_data_error (loads env) settings = None) :
  exists body db' u f greeting,
    create_character_v2 env uname db = (Ok body, db') /\
    user_of (cc_user_id body) db' = Some u /\ username u = uname /\
    character_of (cc_character_id body) db' = Some (cc_character body) /\
    character_id (cc_character body) = cc_character_id body /\
    c_user_id (cc_character body) = cc_user_id body /\
    cd_name settings = Some (name (cc_character body)) /\
    tracker_of (cc_character_id body) db' = Some f /\
    current_level f = 1 /\ message_count f = 0 /\
    In greeting (character_timeline (cc_character_id body) db') /\
    (speaker_name greeting, message_content greeting,
     favorability_level greeting)
    = (name (cc_character body), cc_initial_message body, 1) /\
    cc_initial_message body
    = create_initial_message env (name (cc_character body)) /\
    cc_favorability_level body = 1.
Proof.
  destruct (get_or_create_user_spec uname db)
    as (u & db1 & Hu & Hname & Hin & _ & _ & _ & _ & _).
  assert (Hreach1 : reachable db1).
  { replace db1 with (snd (get_or_create_user uname db)) by now rewrite Hu.
    now apply get_or_create_user_reachable. }
  destruct (save_character_pair (loads env) (user_id u) settings db1
              Hreach1 Hdata)
    as (c & f & db2 & Hsave & _ & Hnm & _ & Huid & Hchar & Htr & Hlv & Hcnt
        & _ & Husers & _).
  rewrite create_character_v2_eq. cbv zeta. rewrite Hu. cbn [fst snd].
  rewrite Hgen, Hsave, Hnm.
  eexists _, _, u, f,
    (new_message (utcnow_greeting env) (user_id u) (character_id c) (name c)
       (create_initial_message env (name c)) 1 db2).
  split; [reflexivity|].
  cbn [cc_user_id cc_character_id cc_character cc_initial_message
       cc_favorability_level].
  repeat split; try assumption.
  - unfold user_of. cbn [users add_message]. rewrite Husers.
    pose proof (user_id_unique _ (reachable_store_ok db1 Hreach1)) as Hnd.
    destruct (find_key_in user_id (users db1) (user_id u)) as [v Hv];
      [now apply in_map|].
    rewrite Hv. f_equal.
    apply find_some in Hv. destruct Hv as [Hvin Hvid]. apply Z.eqb_eq in Hvid.
    exact (keyed_row_unique user_id (users db1) v u Hnd Hvin Hin Hvid).
  - apply character_timeline_In. split; [|reflexivity].
    cbn [messages add_message]. apply in_or_app. right. now left.
Qed.

Lemma create_character_v2_creates_witness :
  exists body db' u f greeting,
    create_character_v2 SampleCreate.env_yui "Alice" Run.db_one_turn
    = (Ok body, db') /\
    user_of (cc_user_id body) db' = Some u /\ username u = "Alice" /\
    character_of (cc_character_id body) db' = Some (cc_character body) /\
    character_id (cc_character body) = cc_character_id body /\
    c_user_id (cc_character body) = cc_user_id body /\
    cd_name Sample.yui = Some (name (cc_character body)) /\
    tracker_of (cc_character_id body) db' = Some f /\
    current_level f = 1 /\ message_count f = 0 /\
    In greeting (character_timeline (cc_character_id body) db') /\
    (speaker_name greeting, message_content greeting,
     favorability_level greeting)
    = (name (cc_character body), cc_initial_message body, 1) /\
    cc_initial_message body
    = SampleCreate.greet (name (cc_character body)) /\
    cc_favorability_level body = 1.
Proof.
  exact (create_character_v2_creates SampleCreate.env_yui "Alice"
           Run.db_one_turn Sample.yui one_turn_reachable eq_refl eq_refl).
Defined.

(** * The character generator's bounded texts *)

Example py_reads_code_points :
  py "a歲，…" = [97; 27506; 65292; 8230] /\ py "..." = [46; 46; 46].
Proof. split; reflexivity. Qed.

Lemma clip_spec (limit keep : nat) (s : pystr) :
  (keep + 3 = limit)%nat ->
  (List.length (clip limit keep s) <= limit)%nat /\
  ((List.length s <= limit)%nat -> clip limit keep s = s) /\
  ((limit < List.length s)%nat ->
   List.length (clip limit keep s) = limit /\
   firstn keep (clip limit keep s) = firstn keep s /\
   skipn keep (clip limit keep s) = py "...").
Proof.
  intros Hk. unfold clip.
  destruct (Nat.ltb_spec limit (List.length s)) as [Hlong|Hshort].
  - assert (Hlen : List.length (firstn keep s) = keep)
      by (rewrite length_firstn; lia).
    repeat split; try lia.
    + rewrite length_app, Hlen. simpl. lia.
    + rewrite length_app, Hlen. simpl. lia.
    + rewrite firstn_app, Hlen, Nat.sub_diag. simpl.
      rewrite app_nil_r. now rewrite firstn_firstn, Nat.min_id.
    + rewrite skipn_app, Hlen, Nat.sub_diag. simpl.
      rewrite skipn_all2 by lia. reflexivity.
  - repeat split; lia.
Qed.

(** X21: the identity text is never longer than 200 characters: a joined
    text of up to 200 is returned whole, a longer one as its first 197
    characters followed by three dots. *)
Theorem generate_identity_fits (dream_type : DreamType) :
  let joined := join (py "，") (identity_parts dream_type) in
  (List.length (_generate_identity dream_type) <= 200)%nat /\
  ((List.length joined <= 200)%nat ->
   _generate_identity dream_type = joined) /\
  ((200 < List.length joined)%nat ->
   List.length (_generate_identity dream_type) = 200%nat /\
   firstn 197 (_generate_identity dream_type) = firstn 197 joined /\
   skipn 197 (_generate_identity dream_type) = py "...").
Proof.
  cbv zeta. unfold _generate_identity. now apply clip_spec.
Qed.

(** X22: the detail setting is never longer than 500 characters: a
    concatenation of up to 500 is returned whole, a longer one as its
    first 497 characters followed by three dots. *)
Theorem generate_detail_setting_fits (dream_type : DreamType)
    (personality_type : PersonalityType) (custom_memory : CustomMemory) :
  let joined :=
    join [] (detail_parts dream_type personality_type custom_memory) in
  (List.length
     (_generate_detail_setting dream_type personality_type custom_memory)
   <= 500)%nat /\
  ((List.length joined <= 500)%nat ->
   _generate_detail_setting dream_type personality_type custom_memory
   = joined) /\
  ((500 < List.length joined)%nat ->
   List.length
     (_generate_detail_setting dream_type personality_type custom_memory)
   = 500%nat /\
   firstn 497
     (_generate_detail_setting dream_type personality_type custom_memory)
   = firstn 497 joined /\
   skipn 497
     (_generate_detail_setting dream_type personality_type custom_memory)
   = py "...").
Proof.
  cbv zeta. unfold _generate_detail_setting. now apply clip_spec.
Qed.

Example identity_of_sample :
  _generate_identity SampleProfile.dream = py "25歲，florist，喜歡hiking" /\
  List.length (_generate_identity SampleProfile.wordy) = 200%nat.
Proof. split; reflexivity. Qed.

(** * The history for any limit *)

(** X23: whatever the limit, [get_conversation_history] writes nothing
    and returns a tail of the character's timestamp-ordered messages:
    nothing is reordered or added.  No limit and a limit of 0 return all
    of them, a negative limit returns none, and a character without
    messages (an unknown id included) gets the empty list. *)
Theorem history_is_a_tail (cid : Z) (limit : option Z) (db : DB) :
  exists dropped kept,
    get_conversation_history cid limit db = (Return kept, db) /\
    character_timeline cid db = dropped ++ kept /\
    chronological kept /\
    (limit = None \/ limit = Some 0 -> dropped = []) /\
    (forall n, limit = Some n -> n < 0 -> kept = []) /\
    ((forall m, In m (messages db) -> m_character_id m <> cid) ->
     kept = []).
Proof.
  rewrite get_conversation_history_eq.
  pose proof (order_by_timestamp_sorted
                (filter (by_character cid) (messages db))) as Hsorted.
  fold (character_timeline cid db) in Hsorted.
  assert (Hnone : (forall m, In m (messages db) -> m_character_id m <> cid) ->
                  character_timeline cid db = []).
  { intros Hno. destruct (character_timeline cid db) as [|m r] eqn:Htl;
      [reflexivity|].
    assert (Hm : In m (character_timeline cid db)) by (rewrite Htl; now left).
    apply character_timeline_In in Hm. destruct Hm as [Hin Hc].
    now destruct (Hno m Hin). }
  assert (Hall : exists dropped kept,
            (Return (A:=list Message) (character_timeline cid db), db)
            = (Return kept, db) /\
            character_timeline cid db = dropped ++ kept /\
            chronological kept /\ dropped = [] /\
            ((forall m, In m (messages db) -> m_character_id m <> cid) ->
             kept = [])).
  { exists [], (character_timeline cid db). repeat split; auto. }
  destruct limit as [n|].
  - destruct (Z.eqb_spec n 0) as [->|Hnz].
    + destruct Hall as (dropped & kept & Heq & Happ & Hch & Hd & Hk).
      exists dropped, kept. repeat split; auto.
      intros k [= <-] Hneg. lia.
    + unfold most_recent.
      destruct (Z.gtb_spec (Z.of_nat (List.length (character_timeline cid db)))
                  n) as [Hgt|Hle].
      * exists (firstn (Z.to_nat (Z.of_nat (List.length
                  (character_timeline cid db)) - n))
                  (character_timeline cid db)),
          (skipn (Z.to_nat (Z.of_nat (List.length
                  (character_timeline cid db)) - n))
                  (character_timeline cid db)).
        repeat split.
        -- now rewrite firstn_skipn.
        -- now apply chronological_skipn.
        -- intros [H|H]; congruence.
        -- intros k [= <-] Hneg. apply skipn_all2. lia.
        -- intros Hno. rewrite (Hnone Hno). now rewrite skipn_nil.
      * exists [], (character_timeline cid db). repeat split; auto.
        intros k [= <-] Hneg. lia.
  - destruct Hall as (dropped & kept & Heq & Happ & Hch & Hd & Hk).
    exists dropped, kept. repeat split; auto. discriminate.
Qed.

Example history_negative_limit :
  get_conversation_history 1 (Some (-1)) Example.db_three
  = (Return [], Example.db_three).
Proof. reflexivity. Qed.
